(** * Recoverable secp256k1 signatures: a model of [src/signature.js]

    The development embeds the [Signature] value of [signature.js] (its
    byte, hex and base58-checksum encodings, the canonical signing loop, the
    recovery-id bookkeeping and the polymorphic normaliser [Signature.from])
    and proves the properties its specification states about them. The
    methods [verify], [verifyHash] and [verifyHex], which delegate to the
    curve adapter, are modelled over an interface of their own.

    The data of the program is modelled as follows: a [BigInteger] of the
    [bigi] library is a natural number [N]; a JavaScript number that
    holds an integer is a [Z], and the arithmetic [recoverHash] does on a
    stored recovery id rounds as doubles do; a [Buffer] is a [list byte]; a
    JavaScript string is a [string]; a thrown exception is the [Throw] case
    of [result]; the [signatureCache] variable of an instance is passed in
    and out of [toString]; the unbounded loop of [signHash] runs on fuel. *)

From Stdlib Require Import ZArith NArith List String Ascii Lia Bool.
From Stdlib.Strings Require Import Byte.
Import ListNotations.

Local Open Scope list_scope.

(** ** Exceptions *)

(** An exception is represented by its class and its message. The other
    properties of an error object ([actual] and [expected] of an
    AssertionError, the stack) are not modelled. *)
Inductive error : Type :=
| Error (message : string)
| AssertionError (message : string)
| TypeError (message : string)
| RangeError (message : string).

Inductive result (A : Type) : Type :=
| Ok (a : A)
| Throw (e : error).

Arguments Ok {A} a.
Arguments Throw {A} e.

Definition bind {A B : Type} (m : result A) (k : A -> result B) : result B :=
  match m with
  | Ok a => k a
  | Throw e => Throw e
  end.

Notation "x <- m ;; k" := (bind m (fun x => k))
  (at level 61, m at next level, right associativity).

(** [assert(cond, message)] and [assert.equal(a, b, message)] of Node's
    [assert]: the AssertionError they raise carries the given message. *)
Definition assert (cond : bool) (message : string) : result unit :=
  if cond then Ok tt else Throw (AssertionError message).

(** ** Positional numerals

    [bigi] turns a [BigInteger] into its minimal big-endian byte array and
    [bs58] turns a byte string into base-58 digits: both are the digits of a
    number in a radix, most significant first. *)
Module Radix.

(** Least significant digit first; [fuel] bounds the number of digits. *)
Fixpoint digits_le (fuel : nat) (base n : N) : list N :=
  match fuel with
  | O => []
  | S fuel' =>
      if (n =? 0)%N then []
      else (n mod base)%N :: digits_le fuel' base (n / base)%N
  end.

(** The digits of [n], most significant first, none for [0]. *)
Definition to_digits (base n : N) : list N :=
  rev (digits_le (N.to_nat (N.size n)) base n).

(** The number a big-endian digit string denotes. *)
Definition of_digits (base : N) (ds : list N) : N :=
  fold_left (fun acc d => (acc * base + d)%N) ds 0%N.

(** The number a little-endian digit string denotes. *)
Fixpoint value_le (base : N) (ds : list N) : N :=
  match ds with
  | [] => 0%N
  | d :: ds' => (d + base * value_le base ds')%N
  end.

(** How many copies of [x] the list starts with. *)
Fixpoint leading {A : Type} (eqb : A -> A -> bool) (x : A) (l : list A) : nat :=
  match l with
  | [] => O
  | y :: l' => if eqb x y then S (leading eqb x l') else O
  end.

(** A little-endian digit string is normal when its last digit is not 0. *)
Fixpoint normal_le (ds : list N) : Prop :=
  match ds with
  | [] => True
  | d :: ds' =>
      match ds' with
      | [] => d <> 0%N
      | _ :: _ => normal_le ds'
      end
  end.

(** A big-endian digit string is normal when it does not start with 0. *)
Definition normal_be (ds : list N) : Prop :=
  match ds with
  | [] => True
  | d :: _ => d <> 0%N
  end.

End Radix.

(** ** Numbers

    A number that holds an integer is modelled by that integer. Numbers
    are IEEE 754 doubles: an arithmetic operation returns the double
    nearest to the exact result, a tie going to the even significand, and
    the bitwise operators work on their operands brought to 32-bit signed
    integers. *)

(** The double nearest to an integer: an integer of at most 53 bits is a
    double, a longer one is rounded to its 53 leading bits. *)
Definition Number_round (z : Z) : Z :=
  let m := Z.abs z in
  let e := (Z.log2 m - 52)%Z in
  if (e <=? 0)%Z then z
  else
    let q := (m / 2 ^ e)%Z in
    let rest := (m mod 2 ^ e)%Z in
    let half := (2 ^ (e - 1))%Z in
    let q :=
      if (rest <? half)%Z then q
      else if (half <? rest)%Z then (q + 1)%Z
      else if Z.even q then q else (q + 1)%Z in
    (Z.sgn z * (q * 2 ^ e))%Z.

(** [a - b] on numbers; taking 27 from a finite number gives a finite
    number. *)
Definition Number_sub (a b : Z) : Z := Number_round (a - b).

(** [ToInt32]: the integer modulo [2 ^ 32], read as a signed 32-bit
    integer. *)
Definition ToInt32 (z : Z) : Z := ((z + 2 ^ 31) mod 2 ^ 32 - 2 ^ 31)%Z.

(** [a & b] on numbers. *)
Definition Number_and (a b : Z) : Z := Z.land (ToInt32 a) (ToInt32 b).

(** ** Bytes and buffers *)

(** The byte a number is stored as: its low eight bits. *)
Definition byte_of_N (n : N) : byte :=
  match Byte.of_N (n mod 256)%N with
  | Some b => b
  | None => x00
  end.

Definition bytes_to_N (buf : list byte) : list N := map Byte.to_N buf.

(** JavaScript's [slice(start, end)] on strings, arrays and buffers: a
    negative index counts from the end, both are clamped to the length, and
    an empty range gives an empty result. The result is (first index,
    number of elements). *)
Definition slice_bounds (len : nat) (start : Z) (end_ : option Z) : nat * nat :=
  let n := Z.of_nat len in
  let clamp := fun k : Z => if (k <? 0)%Z then Z.max (n + k) 0 else Z.min k n in
  let first := clamp start in
  let last := match end_ with Some e => clamp e | None => n end in
  (Z.to_nat first, Z.to_nat (last - first)).

Definition Buffer_slice (buf : list byte) (start : Z) (end_ : option Z) : list byte :=
  let (first, count) := slice_bounds (List.length buf) start end_ in
  firstn count (skipn first buf).

Definition String_slice (str : string) (start : Z) (end_ : option Z) : string :=
  let (first, count) := slice_bounds (String.length str) start end_ in
  substring first count str.

(** [new Buffer(size)]; every byte of it is overwritten before it is read. *)
Definition Buffer_alloc (size : nat) : list byte := repeat x00 size.

(** [buf.writeUInt8(value, offset)]: it throws unless the value is an
    unsigned byte and the offset is inside the buffer (a RangeError; older
    versions of Node raise a TypeError for the value). *)
Definition Buffer_writeUInt8 (buf : list byte) (value : Z) (offset : nat)
  : result (list byte) :=
  if ((0 <=? value)%Z && (value <=? 255)%Z && (offset <? List.length buf)%nat)%bool
  then Ok (firstn offset buf ++ byte_of_N (Z.to_N value) :: skipn (S offset) buf)
  else Throw (RangeError "value or offset is out of bounds").

(** [buf.readUInt8(offset)]. *)
Definition Buffer_readUInt8 (buf : list byte) (offset : nat) : result Z :=
  match nth_error buf offset with
  | Some b => Ok (Z.of_N (Byte.to_N b))
  | None => Throw (RangeError "offset is out of bounds")
  end.

(** [source.copy(target, targetStart)]: the bytes of [source] that fit
    overwrite [target] from [targetStart] on. *)
Definition Buffer_copy (source target : list byte) (targetStart : nat) : list byte :=
  let room := (List.length target - targetStart)%nat in
  let written := firstn room source in
  firstn targetStart target ++ written
    ++ skipn (targetStart + List.length written) target.

Definition hex_digit (n : N) : ascii :=
  nth (N.to_nat n) (list_ascii_of_string "0123456789abcdef") "0"%char.

(** [buf.toString('hex')]: two lower-case digits a byte. *)
Fixpoint Buffer_toString_hex (buf : list byte) : string :=
  match buf with
  | [] => EmptyString
  | b :: buf' =>
      String (hex_digit (Byte.to_N b / 16)%N)
        (String (hex_digit (Byte.to_N b mod 16)%N) (Buffer_toString_hex buf'))
  end.

(** ** The [bigi] operations the module calls *)

(** [toByteArrayUnsigned]: the minimal big-endian bytes, none for zero. *)
Definition BigInteger_toByteArrayUnsigned (n : N) : list byte :=
  map byte_of_N (Radix.to_digits 256 n).

(** [n.toBuffer(size)]: zero bytes in front up to [size] bytes; a number
    that needs more than [size] bytes keeps them all. *)
Definition BigInteger_toBuffer (size : nat) (n : N) : list byte :=
  let byteArray := BigInteger_toByteArrayUnsigned n in
  repeat x00 (size - List.length byteArray) ++ byteArray.

(** [BigInteger.fromBuffer(buf)]: the bytes read as an unsigned big-endian
    number. *)
Definition BigInteger_fromBuffer (buf : list byte) : N :=
  Radix.of_digits 256 (bytes_to_N buf).

(** [toDERInteger]: the minimal signed big-endian bytes of a non-negative
    number, so a zero byte goes in front when the top bit is set, and zero
    is one zero byte. *)
Definition BigInteger_toDERInteger (n : N) : list byte :=
  match BigInteger_toByteArrayUnsigned n with
  | [] => [x00]
  | b :: rest =>
      if (128 <=? Byte.to_N b)%N then x00 :: b :: rest else b :: rest
  end.

(** The unsigned big-endian form of [n] in [width] bytes, as the wire
    format words it: byte [j] is [n / 256 ^ (width - 1 - j)] reduced to a
    byte. *)
Fixpoint unsigned_big_endian (width : nat) (n : N) : list byte :=
  match width with
  | O => []
  | S width' =>
      byte_of_N (n / 256 ^ N.of_nat width')%N :: unsigned_big_endian width' n
  end.

(** ** Signature values *)

(** The three fields of a [Signature]: the pair (r, s) and the recovery id. *)
Record Signature : Type := mkSignature { r : N; s : N; i : Z }.

(** The (r, s) pair the curve adapter's [sign] returns. *)
Record ECSignature : Type := mkECSignature { ec_r : N; ec_s : N }.

(** Modelled from the spec: [ECSignature.toDER] lives in [ecsignature.js],
    which is not among the sources. It is the DER sequence of the two
    integers, [0x30 len 0x02 lenR R 0x02 lenS S], each integer in its
    minimal signed big-endian form; a [Buffer] stores every entry of the
    array it is built from as a byte. *)
Definition ECSignature_toDER (sg : ECSignature) : list byte :=
  let rBa := BigInteger_toDERInteger (ec_r sg) in
  let sBa := BigInteger_toDERInteger (ec_s sg) in
  let sequence :=
    x02 :: byte_of_N (N.of_nat (List.length rBa)) :: rBa
      ++ x02 :: byte_of_N (N.of_nat (List.length sBa)) :: sBa in
  x30 :: byte_of_N (N.of_nat (List.length sequence)) :: sequence.

(** ** JavaScript values, as far as [Signature.from] looks at them *)

(** An object is seen through its properties [r], [s] and [i]; a property
    it does not have reads as [VUndefined]. *)
Inductive value : Type :=
| VUndefined
| VNull
| VBoolean (b : bool)
| VNumber (z : Z)
| VString (str : string)
| VBuffer (buf : list byte)
| VBigInteger (n : N)
| VObject (o_r o_s o_i : value).

(** A [Signature] as the object its constructor returns. *)
Definition Signature_value (sg : Signature) : value :=
  VObject (VBigInteger (r sg)) (VBigInteger (s sg)) (VNumber (i sg)).

(** ToBoolean. *)
Definition truthy (v : value) : bool :=
  match v with
  | VUndefined | VNull => false
  | VBoolean b => b
  | VNumber z => negb (z =? 0)%Z
  | VString str => negb (String.eqb str "")
  | VBuffer _ | VBigInteger _ | VObject _ _ _ => true
  end.

Definition get_r (o : value) : value :=
  match o with VObject o_r _ _ => o_r | _ => VUndefined end.

Definition get_s (o : value) : value :=
  match o with VObject _ o_s _ => o_s | _ => VUndefined end.

Definition get_i (o : value) : value :=
  match o with VObject _ _ o_i => o_i | _ => VUndefined end.

(** ** A base-58 codec

    [bs58] is a library of its own; the model below is the codec it
    documents: the leading zero bytes of the input become that many leading
    ['1'], and the rest is the base-58 numeral of the bytes read as a
    big-endian number. It instantiates the codec the signature module is
    parameterised by. *)
Module Base58.

Definition ALPHABET : list ascii :=
  list_ascii_of_string "123456789ABCDEFGHJKLMNPQRSTUVWXYZabcdefghijkmnopqrstuvwxyz".

Definition LEADER : ascii := "1"%char.

Definition digit_char (d : N) : ascii := nth (N.to_nat d) ALPHABET LEADER.

(** The place of a character in the alphabet. *)
Fixpoint index_from (k : N) (alphabet : list ascii) (c : ascii) : option N :=
  match alphabet with
  | [] => None
  | a :: alphabet' =>
      if Ascii.eqb a c then Some k else index_from (N.succ k) alphabet' c
  end.

Definition char_digit (c : ascii) : option N := index_from 0 ALPHABET c.

Fixpoint chars_digits (cs : list ascii) : option (list N) :=
  match cs with
  | [] => Some []
  | c :: cs' =>
      match char_digit c, chars_digits cs' with
      | Some d, Some ds => Some (d :: ds)
      | _, _ => None
      end
  end.

Definition encode (source : list byte) : string :=
  let zeros := Radix.leading N.eqb 0%N (bytes_to_N source) in
  let digits := Radix.to_digits 58 (Radix.of_digits 256 (bytes_to_N source)) in
  string_of_list_ascii (repeat LEADER zeros ++ map digit_char digits).

Definition decode (str : string) : result (list byte) :=
  match chars_digits (list_ascii_of_string str) with
  | None => Throw (Error "Non-base58 character")
  | Some ds =>
      let zeros := Radix.leading N.eqb 0%N ds in
      Ok (repeat x00 zeros
            ++ map byte_of_N (Radix.to_digits 256 (Radix.of_digits 58 ds)))
  end.

End Base58.

(** ** The collaborators of [signature.js]

    What the module requires and the sources do not contain: the key types
    ([key_public.js], [key_private.js]), the digests ([hash.js]), the base-58
    codec ([bs58]), the string decoders of [Buffer], the curve adapter
    ([ecdsa.js]) and the configured prefix ([config.js]).
    [PrivateKey_from] is the call [PrivateKey(privateKey)] that turns what
    the caller passed (a WIF string, a buffer, a key) into a key or throws;
    [PrivateKey_d] is the field [d] of a key and [PrivateKey_toPublic_Q] is
    [toPublic().Q]. *)
Class Collaborators : Type := {
  Point : Type;
  PublicKey : Type;
  PublicKey_fromPoint : Point -> PublicKey;
  PrivateKey : Type;
  KeyInput : Type;
  PrivateKey_from : KeyInput -> result PrivateKey;
  PrivateKey_d : PrivateKey -> N;
  PrivateKey_toPublic_Q : PrivateKey -> Point;
  hash_sha256 : list byte -> list byte;
  hash_ripemd160 : list byte -> list byte;
  base58_encode : list byte -> string;
  base58_decode : string -> result (list byte);
  Buffer_from_utf8 : string -> list byte;
  Buffer_from_hex : string -> result (list byte);
  ecdsa_sign : list byte -> N -> Z -> ECSignature;
  ecdsa_calcPubKeyRecoveryParam : N -> ECSignature -> Point -> result Z;
  ecdsa_recoverPubKey : N -> Signature -> Z -> result Point;
  config_address_prefix : string
}.

(** ** The module [signature.js] *)

Section Model.

Context {env : Collaborators}.

(** [function Signature(r, s, i)]: each argument is asserted to be
    [!= null]; [None] stands for a null or undefined argument. *)
Definition Signature_new (r s : option N) (i : option Z) : result Signature :=
  match r, s, i with
  | Some r, Some s, Some i => Ok (mkSignature r s i)
  | _, _, _ => Throw (AssertionError "Missing parameter")
  end.

(** A parameter with the default [config.address_prefix]: the default is
    taken when the argument is left out ([None]). *)
Definition prefix_or_default (prefix : option string) : string :=
  match prefix with
  | Some p => p
  | None => config_address_prefix
  end.

(** The opening lines of [verifyHash], [recoverHash] and [signHash]: a
    string is decoded as hex, and anything but a buffer of 32 bytes is
    refused with the function's message. *)
Definition digest_buffer (dataSha256 : value) (message : string)
  : result (list byte) :=
  dataSha256 <-
    match dataSha256 with
    | VString hex => buf <- Buffer_from_hex hex ;; Ok (VBuffer buf)
    | _ => Ok dataSha256
    end ;;
  match dataSha256 with
  | VUndefined | VNull => Throw (TypeError "Cannot read property 'length'")
  | VBuffer buf =>
      if (List.length buf =? 32)%nat then Ok buf else Throw (Error message)
  | _ => Throw (Error message)
  end.

(** The opening lines of [verify], [recover] and [Signature.sign]. *)
Definition data_buffer (data : value) : result (list byte) :=
  match data with
  | VString str => Ok (Buffer_from_utf8 str)
  | VBuffer buf => Ok buf
  | _ => Throw (AssertionError "data is a required String or Buffer")
  end.

Definition recoverHash (sg : Signature) (dataSha256 : value) : result PublicKey :=
  dataSha256 <- digest_buffer dataSha256
                  "dataSha256: 32 byte String or buffer requred" ;;
  let e := BigInteger_fromBuffer dataSha256 in
  let i2 := i sg in
  let i2 := Number_sub i2 27 in
  let i2 := Number_and i2 3 in
  Q <- ecdsa_recoverPubKey e sg i2 ;;
  Ok (PublicKey_fromPoint Q).

Definition recover (sg : Signature) (data : value) : result PublicKey :=
  data <- data_buffer data ;;
  let data := hash_sha256 data in
  recoverHash sg (VBuffer data).

Definition toBuffer (sg : Signature) : result (list byte) :=
  let buf := Buffer_alloc 65 in
  buf <- Buffer_writeUInt8 buf (i sg) 0 ;;
  let buf := Buffer_copy (BigInteger_toBuffer 32 (r sg)) buf 1 in
  let buf := Buffer_copy (BigInteger_toBuffer 32 (s sg)) buf 33 in
  Ok buf.

Definition toHex (sg : Signature) : result string :=
  buf <- toBuffer sg ;;
  Ok (Buffer_toString_hex buf).

(** [if (signatureCache)]: an undefined or empty cache is not used. *)
Definition cache_hit (signatureCache : option string) : option string :=
  match signatureCache with
  | Some body => if String.eqb body "" then None else Some body
  | None => None
  end.

(** [toString(prefix)]: the instance's [signatureCache] is passed in and
    handed back with the result. *)
Definition toString (sg : Signature) (signatureCache : option string)
  (prefix : option string) : result string * option string :=
  let prefix := prefix_or_default prefix in
  match cache_hit signatureCache with
  | Some body => (Ok (prefix ++ body)%string, signatureCache)
  | None =>
      match toBuffer sg with
      | Throw e => (Throw e, signatureCache)
      | Ok pub_buf =>
          let checksum := hash_ripemd160 pub_buf in
          let signatureString := pub_buf ++ Buffer_slice checksum 0 (Some 4%Z) in
          let signatureCache := base58_encode signatureString in
          (Ok (prefix ++ signatureCache)%string, Some signatureCache)
      end
  end.

(** Successive [toString] calls on one instance, the cache threaded
    through them. *)
Fixpoint toString_calls (sg : Signature) (signatureCache : option string)
  (prefixes : list (option string)) : list (result string) * option string :=
  match prefixes with
  | [] => ([], signatureCache)
  | prefix :: prefixes' =>
      let (out, signatureCache) := toString sg signatureCache prefix in
      let (outs, signatureCache) := toString_calls sg signatureCache prefixes' in
      (out :: outs, signatureCache)
  end.

(** One round of the [while (true)] loop of [signHash] tests the two
    length bytes of the DER form. *)
Definition canonical_der (der : list byte) : bool :=
  match nth_error der 3 with
  | Some lenR =>
      match nth_error der (5 + N.to_nat (Byte.to_N lenR)) with
      | Some lenS => ((Byte.to_N lenR =? 32) && (Byte.to_N lenS =? 32))%N
      | None => false
      end
  | None => false
  end.

(** The loop of [signHash] from a given [nonce] on. A run is the list of
    nonces a warning was logged at and what the loop ended with; [None]
    when [fuel] rounds did not end it. *)
Fixpoint signHash_loop (fuel : nat) (dataSha256 : list byte)
  (privateKey : PrivateKey) (e : N) (nonce : Z)
  : option (list Z * result Signature) :=
  match fuel with
  | O => None
  | S fuel' =>
      let ecsignature := ecdsa_sign dataSha256 (PrivateKey_d privateKey) nonce in
      let nonce := (nonce + 1)%Z in
      let der := ECSignature_toDER ecsignature in
      if canonical_der der then
        Some ([],
              i <- ecdsa_calcPubKeyRecoveryParam e ecsignature
                     (PrivateKey_toPublic_Q privateKey) ;;
              let i := (i + 4)%Z in
              let i := (i + 27)%Z in
              Signature_new (Some (ec_r ecsignature)) (Some (ec_s ecsignature))
                (Some i))
      else
        let warned := if (nonce mod 10 =? 0)%Z then [nonce] else [] in
        match signHash_loop fuel' dataSha256 privateKey e nonce with
        | Some (log, res) => Some (warned ++ log, res)
        | None => None
        end
  end.

(** [Signature.signHash]. The key [PrivateKey(privateKey)] returns is an
    object, so the assertion on it that follows holds. *)
Definition signHash (fuel : nat) (dataSha256 : value) (privateKey : KeyInput)
  : option (list Z * result Signature) :=
  match digest_buffer dataSha256 "dataSha256: 32 byte buffer requred" with
  | Throw err => Some ([], Throw err)
  | Ok dataSha256 =>
      match PrivateKey_from privateKey with
      | Throw err => Some ([], Throw err)
      | Ok privateKey =>
          let nonce := 0%Z in
          let e := BigInteger_fromBuffer dataSha256 in
          signHash_loop fuel dataSha256 privateKey e nonce
      end
  end.

Definition sign (fuel : nat) (data : value) (privateKey : KeyInput)
  : option (list Z * result Signature) :=
  match data_buffer data with
  | Throw err => Some ([], Throw err)
  | Ok data =>
      let data := hash_sha256 data in
      signHash fuel (VBuffer data) privateKey
  end.

Definition fromBuffer (buf : value) : result Signature :=
  match buf with
  | VBuffer buf =>
      _ <- assert (List.length buf =? 65)%nat "Invalid signature length" ;;
      i <- Buffer_readUInt8 buf 0 ;;
      _ <- assert (i - 27 =? Z.land (i - 27) 7)%Z "Invalid signature parameter" ;;
      let r := BigInteger_fromBuffer (Buffer_slice buf 1 (Some 33%Z)) in
      let s := BigInteger_fromBuffer (Buffer_slice buf 33 None) in
      Signature_new (Some r) (Some s) (Some i)
  | _ => Throw (AssertionError "Buffer is required")
  end.

Definition fromHex (hex : string) : result Signature :=
  buf <- Buffer_from_hex hex ;;
  fromBuffer (VBuffer buf).

Definition fromStringOrThrow (signature : string) (prefix : option string)
  : result Signature :=
  let prefix := prefix_or_default prefix in
  let actualPrefix :=
    String_slice signature 0 (Some (Z.of_nat (String.length prefix))) in
  _ <- assert (String.eqb actualPrefix prefix)
         ("Expecting key to begin with " ++ prefix ++ ", instead got " ++ prefix) ;;
  let signature := String_slice signature (Z.of_nat (String.length prefix)) None in
  signature <- base58_decode signature ;;
  let checksum := Buffer_toString_hex (Buffer_slice signature (-4) None) in
  let signature := Buffer_slice signature 0 (Some (-4)%Z) in
  let new_checksum := hash_ripemd160 signature in
  let new_checksum := Buffer_toString_hex (Buffer_slice new_checksum 0 (Some 4%Z)) in
  _ <- assert (String.eqb checksum new_checksum)
         ("Checksum did not match, " ++ checksum ++ " != " ++ new_checksum) ;;
  fromBuffer (VBuffer signature).

(** [try { ... } catch (e) { return null }]: [None] is the null result. *)
Definition fromString (signature : string) (prefix : option string)
  : option Signature :=
  match fromStringOrThrow signature prefix with
  | Ok sg => Some sg
  | Throw _ => None
  end.

(** [Signature.from]: the chain of conditional expressions, then the test
    of what it produced. A parsed signature is a truthy object, null and
    the falsy input itself are not. *)
Definition from (o : value) : result value :=
  let not_a_signature :=
    Throw (TypeError "signature should be a hex string or buffer") in
  if truthy o then
    if (truthy (get_r o) && truthy (get_s o) && truthy (get_i o))%bool then Ok o
    else
      match o with
      | VString str =>
          if (String.length str =? 130)%nat then
            sg <- fromHex str ;; Ok (Signature_value sg)
          else
            match fromString str None with
            | Some sg => Ok (Signature_value sg)
            | None => not_a_signature
            end
      | VBuffer _ => sg <- fromBuffer o ;; Ok (Signature_value sg)
      | _ => not_a_signature
      end
  else not_a_signature.

(** *** What the specification says of these functions *)

(** A signature produced by [Signature.sign] or [Signature.signHash]. *)
Definition signed (sg : Signature) : Prop :=
  exists fuel data privateKey log,
    sign fuel data privateKey = Some (log, Ok sg)
    \/ signHash fuel data privateKey = Some (log, Ok sg).

(** The text body of a signature in the words of the specification:
    base58 of the buffer followed by the first four bytes of its
    RIPEMD-160 digest. *)
Definition signature_body (sg : Signature) : result string :=
  buf <- toBuffer sg ;;
  Ok (base58_encode (buf ++ firstn 4 (hash_ripemd160 buf))).

(** [toString] without a cache: the prefix put before the body. *)
Definition toString_uncached (sg : Signature) (prefix : option string)
  : result string :=
  body <- signature_body sg ;;
  Ok (prefix_or_default prefix ++ body)%string.

(** The states the cache of an instance can be in: not yet written, or
    holding the body. *)
Definition cache_of (sg : Signature) (signatureCache : option string) : Prop :=
  match signatureCache with
  | None => True
  | Some body => signature_body sg = Ok body
  end.

(** *** What is expected of the collaborators *)

(** The curve adapter signs with [r] and [s] below [2 ^ 256]. *)
Definition sign_in_range : Prop :=
  forall dataSha256 d nonce,
    (ec_r (ecdsa_sign dataSha256 d nonce) < 2 ^ 256)%N
    /\ (ec_s (ecdsa_sign dataSha256 d nonce) < 2 ^ 256)%N.

(** The recovery parameter the curve adapter finds is one of 0, 1, 2, 3. *)
Definition recovery_param_in_range : Prop :=
  forall e ecsignature Q p,
    ecdsa_calcPubKeyRecoveryParam e ecsignature Q = Ok p -> (0 <= p <= 3)%Z.

(** [bs58] decodes what it encoded. *)
Definition base58_lossless : Prop :=
  forall source, base58_decode (base58_encode source) = Ok source.

(** A RIPEMD-160 digest has 20 bytes. *)
Definition ripemd160_20_bytes : Prop :=
  forall data, List.length (hash_ripemd160 data) = 20%nat.

End Model.

(** ** A sample environment

    Small stand-ins for the collaborators, with the real base-58 codec: a
    curve adapter whose first two signing attempts are not canonical, a
    digest that pads or cuts its input, and an identity key type. The
    general statements below are run on it. *)
Module Sample.

(** A digest of [size] bytes: the last [size] bytes of the input,
    zero-padded in front. *)
Definition digest (size : nat) (data : list byte) : list byte :=
  skipn (List.length data) (repeat x00 size ++ data).

(** Attempt 0 gives an [r] of 33 DER bytes, attempt 1 a short [s], and
    every later attempt a pair of 32 DER bytes each. *)
Definition sign (dataSha256 : list byte) (d : N) (nonce : Z) : ECSignature :=
  let e := (BigInteger_fromBuffer dataSha256 mod 2 ^ 200)%N in
  if (nonce =? 0)%Z then mkECSignature (2 ^ 255 + e) (2 ^ 254 + d mod 2 ^ 200)
  else if (nonce =? 1)%Z then mkECSignature (2 ^ 254 + e) (d mod 2 ^ 200)
  else mkECSignature (2 ^ 254 + e) (2 ^ 253 + d mod 2 ^ 200).

(** The value of a hexadecimal digit. *)
Definition hex_value (c : ascii) : option N :=
  let n := N_of_ascii c in
  if ((48 <=? n) && (n <=? 57))%N then Some (n - 48)%N
  else if ((97 <=? n) && (n <=? 102))%N then Some (n - 87)%N
  else if ((65 <=? n) && (n <=? 70))%N then Some (n - 55)%N
  else None.

(** [Buffer.from(hex, 'hex')]: a byte for each pair of digits, up to the
    first pair that is not hexadecimal. *)
Fixpoint from_hex (cs : list ascii) : list byte :=
  match cs with
  | hi :: lo :: cs' =>
      match hex_value hi, hex_value lo with
      | Some h, Some l => byte_of_N (16 * h + l) :: from_hex cs'
      | _, _ => []
      end
  | _ => []
  end.

Definition calcPubKeyRecoveryParam (e : N) (sg : ECSignature) (Q : N) : result Z :=
  Ok (Z.of_N ((e + ec_r sg + Q) mod 4)).

Definition recoverPubKey (e : N) (sg : Signature) (i2 : Z) : result N :=
  Ok (r sg + s sg + Z.to_N i2)%N.

Definition env : Collaborators := {|
  Point := N;
  PublicKey := N;
  PublicKey_fromPoint := fun Q => Q;
  PrivateKey := N;
  KeyInput := N;
  PrivateKey_from := fun d =>
    if (d =? 0)%N then Throw (TypeError "Invalid private key") else Ok d;
  PrivateKey_d := fun d => d;
  PrivateKey_toPublic_Q := fun d => (3 * d)%N;
  hash_sha256 := digest 32;
  hash_ripemd160 := digest 20;
  base58_encode := Base58.encode;
  base58_decode := Base58.decode;
  Buffer_from_utf8 := fun str => map byte_of_ascii (list_ascii_of_string str);
  Buffer_from_hex := fun hex => Ok (from_hex (list_ascii_of_string hex));
  ecdsa_sign := sign;
  ecdsa_calcPubKeyRecoveryParam := calcPubKeyRecoveryParam;
  ecdsa_recoverPubKey := recoverPubKey;
  config_address_prefix := "EOS"
|}.

(** A signed digest: the 32-byte digest of "hello", the private key 7. *)
Definition hello : list byte :=
  @hash_sha256 env (@Buffer_from_utf8 env "hello").

Definition hello_signature : Signature :=
  mkSignature (2 ^ 254 + BigInteger_fromBuffer hello) (2 ^ 253 + 7) 34.

Definition hello_hex : string :=
  "2240000000000000000000000000000000000000000000000000000068656c6c6f2000000000000000000000000000000000000000000000000000000000000007".

Definition hello_text : string :=
  "EOSLn72zRCCukkLcjauXPKe2v92GZcgbjyJR8PdrJ3oAsxdXgxDLsgEkabte1n2ugLvobcjg5ddjq1qqUF4DufMujoyBaFVaP".

End Sample.

(** ** Verification

    The three verifying methods of a [Signature]. They need two more
    collaborators: the call [PublicKey(pubkey)] of [key_public.js], which
    turns what the caller passed into a key, throws, or returns a falsy value
    ([None]), with the point [Q] of a key; and [ecdsa.verify]. *)
Class Verifier (env : Collaborators) : Type := {
  PublicKeyInput : Type;
  PublicKey_from : PublicKeyInput -> result (option PublicKey);
  PublicKey_Q : PublicKey -> Point;
  ecdsa_verify : list byte -> ECSignature -> Point -> bool
}.

Section Verification.

Context {env : Collaborators} {verifier : Verifier env}.

Definition verifyHash (sg : Signature) (dataSha256 : value)
  (pubkey : PublicKeyInput) : result bool :=
  dataSha256 <- digest_buffer dataSha256 "dataSha256: 32 byte buffer requred" ;;
  publicKey <- PublicKey_from pubkey ;;
  match publicKey with
  | None => Throw (AssertionError "pubkey required")
  | Some publicKey =>
      Ok (ecdsa_verify dataSha256 (mkECSignature (r sg) (s sg))
            (PublicKey_Q publicKey))
  end.

Definition verify (sg : Signature) (data : value) (pubkey : PublicKeyInput)
  : result bool :=
  data <- data_buffer data ;;
  let data := hash_sha256 data in
  verifyHash sg (VBuffer data) pubkey.

Definition verifyHex (sg : Signature) (hex : string) (pubkey : PublicKeyInput)
  : result bool :=
  buf <- Buffer_from_hex hex ;;
  verify sg (VBuffer buf) pubkey.

(** [ecdsa.verify] accepts, for the public key of a private key, every
    pair [ecdsa.sign] makes with that private key. *)
Definition verifies_own_signatures : Prop :=
  forall dataSha256 privateKey nonce,
    ecdsa_verify dataSha256
      (ecdsa_sign dataSha256 (PrivateKey_d privateKey) nonce)
      (PrivateKey_toPublic_Q privateKey) = true.

End Verification.

(** ** More that is expected of the collaborators *)

Section Contracts.

Context {env : Collaborators}.

(** [Buffer.from(hex, 'hex')] decodes what [toString('hex')] wrote. *)
Definition hex_lossless : Prop :=
  forall buf, Buffer_from_hex (Buffer_toString_hex buf) = Ok buf.

(** [bs58] encodes what it decoded to the text it decoded. *)
Definition base58_canonical : Prop :=
  forall text source, base58_decode text = Ok source -> base58_encode source = text.

End Contracts.

(** The nonces [signHash] logs a warning at when [failed] attempts were
    not canonical: the multiples of 10 among 1, ..., [failed]. *)
Definition warnings (failed : nat) : list Z :=
  filter (fun nonce => (nonce mod 10 =? 0)%Z) (map Z.of_nat (seq 1 failed)).

(** A verifier for the sample environment: a pair is accepted when one of
    the sample's signing attempts makes it for the key the point comes
    from. *)
Module SampleVerifier.

Definition verify (dataSha256 : list byte) (sg : ECSignature) (Q : N) : bool :=
  existsb
    (fun nonce =>
       let made := Sample.sign dataSha256 (Q / 3) nonce in
       ((ec_r made =? ec_r sg) && (ec_s made =? ec_s sg))%N)
    [0%Z; 1%Z; 2%Z].

(** A public key is a multiple of 3 (the sample's [toPublic] triples the
    private key); 0 stands for an input the constructor returns nothing
    for. *)
Definition resolve (Q : N) : result (option N) :=
  if (Q =? 0)%N then Ok None
  else if (Q mod 3 =? 0)%N then Ok (Some Q)
  else Throw (AssertionError "Invalid public key").

Definition verifier : Verifier Sample.env := {|
  PublicKeyInput := N;
  PublicKey_from := resolve : N -> result (option (@PublicKey Sample.env));
  PublicKey_Q := fun Q : @PublicKey Sample.env => Q : @Point Sample.env;
  ecdsa_verify := verify : list byte -> ECSignature -> @Point Sample.env -> bool
|}.

End SampleVerifier.

(** * Facts *)

(** ** Numerals *)

Module RadixFacts.
Import Radix.

Local Open Scope N_scope.

Lemma digits_le_zero (fuel : nat) (base : N) : digits_le fuel base 0 = [].
Proof. destruct fuel; reflexivity. Qed.

Lemma div_fuel (base n : N) (fuel : nat) :
  2 <= base -> n < 2 ^ N.of_nat (S fuel) -> n / base < 2 ^ N.of_nat fuel.
Proof.
  intros Hb Hn. rewrite Nat2N.inj_succ, N.pow_succ_r' in Hn.
  apply N.Div0.div_lt_upper_bound. nia.
Qed.

Lemma value_le_digits_le (base : N) (Hb : 2 <= base) (fuel : nat) :
  forall n, n < 2 ^ N.of_nat fuel -> value_le base (digits_le fuel base n) = n.
Proof.
  induction fuel as [|fuel IH]; intros n Hn.
  - simpl in *. lia.
  - simpl digits_le. destruct (N.eqb_spec n 0) as [->|Hz]; [reflexivity|].
    simpl. rewrite IH by (apply div_fuel; assumption).
    rewrite N.add_comm. symmetry. apply N.div_mod'.
Qed.

Lemma of_digits_snoc (base : N) (ds : list N) (d : N) :
  of_digits base (ds ++ [d]) = of_digits base ds * base + d.
Proof. unfold of_digits. rewrite fold_left_app. reflexivity. Qed.

Lemma of_digits_rev (base : N) (ds : list N) :
  of_digits base (rev ds) = value_le base ds.
Proof.
  induction ds as [|d ds IH]; [reflexivity|].
  simpl. rewrite of_digits_snoc, IH. lia.
Qed.

(** Reading back the digits of a number gives the number. *)
Lemma of_to_digits (base n : N) :
  2 <= base -> of_digits base (to_digits base n) = n.
Proof.
  intros Hb. unfold to_digits. rewrite of_digits_rev.
  apply value_le_digits_le; [assumption|].
  rewrite N2Nat.id. apply N.size_gt.
Qed.

Lemma normal_le_value (base : N) (ds : list N) :
  base <> 0 -> ds <> [] -> normal_le ds -> value_le base ds <> 0.
Proof.
  intros Hb. induction ds as [|d ds IH]; intros Hne Hn; [congruence|].
  simpl in *. destruct ds as [|d' ds'].
  - simpl. lia.
  - assert (value_le base (d' :: ds') <> 0) by (apply IH; [discriminate|assumption]).
    nia.
Qed.

Lemma digits_le_value_le (base : N) (Hb : 2 <= base) (ds : list N) :
  Forall (fun d => d < base) ds -> normal_le ds ->
  forall fuel, value_le base ds < 2 ^ N.of_nat fuel ->
  digits_le fuel base (value_le base ds) = ds.
Proof.
  induction ds as [|d ds IH]; intros Hall Hn fuel Hf.
  - apply digits_le_zero.
  - inversion Hall as [|? ? Hd Hall']; subst.
    assert (Hv : value_le base (d :: ds) <> 0)
      by (apply normal_le_value; [lia|discriminate|assumption]).
    assert (Hmod : value_le base (d :: ds) mod base = d).
    { simpl. rewrite N.mul_comm, N.Div0.mod_add. apply N.mod_small; assumption. }
    assert (Hdiv : value_le base (d :: ds) / base = value_le base ds).
    { simpl. rewrite N.mul_comm, N.div_add by lia.
      rewrite N.div_small by assumption. reflexivity. }
    set (v := value_le base (d :: ds)) in *.
    destruct fuel as [|fuel]; [simpl in Hf; lia|].
    simpl digits_le. destruct (N.eqb_spec v 0); [contradiction|].
    rewrite Hmod, Hdiv. f_equal.
    apply IH; [assumption| |rewrite <- Hdiv; apply div_fuel; assumption].
    simpl in Hn. destruct ds; [exact I|assumption].
Qed.

Lemma normal_le_snoc (ds : list N) (d : N) : d <> 0 -> normal_le (ds ++ [d]).
Proof.
  intros Hd. induction ds as [|x ds IH]; [exact Hd|].
  simpl. destruct (ds ++ [d]) eqn:E; [destruct ds; discriminate|assumption].
Qed.

Lemma normal_le_rev (ds : list N) : normal_be ds -> normal_le (rev ds).
Proof.
  destruct ds as [|d ds]; intros H; [exact I|].
  simpl. apply normal_le_snoc. exact H.
Qed.

(** The digits of the number a normal digit string denotes are the string. *)
Lemma to_of_digits (base : N) (ds : list N) :
  2 <= base -> Forall (fun d => d < base) ds -> normal_be ds ->
  to_digits base (of_digits base ds) = ds.
Proof.
  intros Hb Hall Hn. unfold to_digits.
  rewrite <- (rev_involutive ds) at 1 2. rewrite of_digits_rev.
  rewrite digits_le_value_le.
  - apply rev_involutive.
  - assumption.
  - apply Forall_rev. assumption.
  - apply normal_le_rev. assumption.
  - rewrite N2Nat.id. apply N.size_gt.
Qed.

Lemma digits_le_normal (base : N) (Hb : 2 <= base) (fuel : nat) :
  forall n, n < 2 ^ N.of_nat fuel -> normal_le (digits_le fuel base n).
Proof.
  induction fuel as [|fuel IH]; intros n Hn; [exact I|].
  simpl digits_le. destruct (N.eqb_spec n 0) as [->|Hz]; [exact I|].
  pose proof (div_fuel base n fuel Hb Hn) as Hq.
  pose proof (value_le_digits_le base Hb fuel _ Hq) as Hv.
  specialize (IH _ Hq). simpl.
  destruct (digits_le fuel base (n / base)) as [|d ds].
  - simpl in Hv. symmetry in Hv. apply N.div_small_iff in Hv; [|lia].
    rewrite N.mod_small by assumption. assumption.
  - assumption.
Qed.

Lemma to_digits_normal (base n : N) : 2 <= base -> normal_be (to_digits base n).
Proof.
  intros Hb. unfold to_digits.
  pose proof (digits_le_normal base Hb (N.to_nat (N.size n)) n) as Hn.
  rewrite N2Nat.id in Hn. specialize (Hn (N.size_gt n)).
  destruct (rev (digits_le (N.to_nat (N.size n)) base n)) as [|d ds] eqn:E;
    [exact I|].
  apply (f_equal (@rev N)) in E. rewrite rev_involutive in E. simpl in E.
  rewrite E in Hn. simpl. intros ->.
  clear E. induction (rev ds) as [|x l IHl]; simpl in Hn.
  - congruence.
  - destruct (l ++ [0]) eqn:E'; [destruct l; discriminate|]. auto.
Qed.

Lemma digits_le_lt (base : N) (fuel : nat) :
  base <> 0 -> forall n, Forall (fun d => d < base) (digits_le fuel base n).
Proof.
  intros Hb. induction fuel as [|fuel IH]; intros n; [constructor|].
  simpl. destruct (n =? 0); constructor; [|apply IH].
  apply N.mod_lt. assumption.
Qed.

Lemma to_digits_lt (base n : N) :
  base <> 0 -> Forall (fun d => d < base) (to_digits base n).
Proof. intros Hb. apply Forall_rev, digits_le_lt. assumption. Qed.

Lemma digits_le_length (base : N) (Hb : 2 <= base) (fuel : nat) :
  forall n k, n < base ^ N.of_nat k -> (List.length (digits_le fuel base n) <= k)%nat.
Proof.
  induction fuel as [|fuel IH]; intros n k Hn; [simpl; lia|].
  simpl. destruct (N.eqb_spec n 0) as [->|Hz]; [simpl; lia|].
  destruct k as [|k]; [simpl in Hn; lia|].
  simpl List.length. apply le_n_S, IH.
  rewrite Nat2N.inj_succ, N.pow_succ_r' in Hn.
  apply N.Div0.div_lt_upper_bound. assumption.
Qed.

(** A number below [base ^ k] has at most [k] digits. *)
Lemma to_digits_length (base n : N) (k : nat) :
  2 <= base -> n < base ^ N.of_nat k -> (List.length (to_digits base n) <= k)%nat.
Proof.
  intros Hb Hn. unfold to_digits. rewrite length_rev.
  apply digits_le_length; assumption.
Qed.

Lemma value_le_lt (base : N) (ds : list N) :
  Forall (fun d => d < base) ds ->
  value_le base ds < base ^ N.of_nat (List.length ds).
Proof.
  induction 1 as [|d ds Hd _ IH]; [simpl; lia|].
  cbn [List.length value_le]. rewrite Nat2N.inj_succ, N.pow_succ_r'. nia.
Qed.

(** A string of [k] digits denotes a number below [base ^ k]. *)
Lemma of_digits_lt (base : N) (ds : list N) :
  Forall (fun d => d < base) ds ->
  of_digits base ds < base ^ N.of_nat (List.length ds).
Proof.
  intros Hall. rewrite <- (rev_involutive ds) at 1. rewrite of_digits_rev.
  rewrite <- (length_rev ds). apply value_le_lt, Forall_rev. assumption.
Qed.

Lemma of_digits_cons (base d : N) (ds : list N) :
  of_digits base (d :: ds) = d * base ^ N.of_nat (List.length ds) + of_digits base ds.
Proof.
  revert d. induction ds as [|x ds IH] using rev_ind; intros d.
  - unfold of_digits. simpl. lia.
  - rewrite app_comm_cons, !of_digits_snoc, IH, length_app. simpl List.length.
    rewrite Nat.add_1_r, Nat2N.inj_succ, N.pow_succ_r'. lia.
Qed.

(** Zero digits in front do not change the number. *)
Lemma of_digits_zeros (base : N) (k : nat) (ds : list N) :
  of_digits base (repeat 0 k ++ ds) = of_digits base ds.
Proof.
  induction k as [|k IH]; [reflexivity|].
  simpl. rewrite of_digits_cons, IH. lia.
Qed.

Lemma leading_zeros_split (ds : list N) :
  exists rest, ds = repeat 0 (leading N.eqb 0 ds) ++ rest /\ normal_be rest.
Proof.
  induction ds as [|d ds [rest [IH Hn]]].
  - exists []. split; [reflexivity|exact I].
  - cbn [leading]. destruct (N.eqb_spec 0 d) as [<-|Hd].
    + exists rest. split; [simpl; f_equal; exact IH|exact Hn].
    + exists (d :: ds). split; [reflexivity|]. simpl. congruence.
Qed.

Lemma leading_zeros_normal (k : nat) (ds : list N) :
  normal_be ds -> leading N.eqb 0 (repeat 0 k ++ ds) = k.
Proof.
  intros Hn. induction k as [|k IH].
  - destruct ds as [|d ds]; [reflexivity|]. cbn [repeat app leading].
    simpl in Hn. destruct (N.eqb_spec 0 d); [congruence|reflexivity].
  - cbn [repeat app leading]. rewrite N.eqb_refl, IH. reflexivity.
Qed.

(** Two digit strings of one length that denote one number are equal. *)
Lemma of_digits_inj (base : N) (a : list N) :
  forall b, List.length a = List.length b ->
  Forall (fun d => d < base) a -> Forall (fun d => d < base) b ->
  of_digits base a = of_digits base b -> a = b.
Proof.
  induction a as [|x a IH]; intros [|y b] Hlen Ha Hb Heq; try discriminate.
  - reflexivity.
  - injection Hlen as Hlen.
    inversion Ha as [|? ? Hx Ha']; inversion Hb as [|? ? Hy Hb']; subst.
    rewrite !of_digits_cons, <- Hlen in Heq.
    pose proof (of_digits_lt base a Ha') as Hla.
    pose proof (of_digits_lt base b Hb') as Hlb. rewrite <- Hlen in Hlb.
    set (M := base ^ N.of_nat (List.length a)) in *.
    assert (HM : M <> 0) by (apply N.pow_nonzero; lia).
    assert (Hxy : x = y).
    { apply (f_equal (fun v => v / M)) in Heq.
      rewrite !N.div_add_l, !N.div_small in Heq by assumption. lia. }
    subst y. f_equal. apply IH; try assumption. lia.
Qed.

End RadixFacts.

(** ** Bytes *)

Lemma to_N_byte_of_N (n : N) : Byte.to_N (byte_of_N n) = (n mod 256)%N.
Proof.
  unfold byte_of_N. destruct (Byte.of_N (n mod 256)) as [b|] eqn:E.
  - apply Byte.to_of_N. exact E.
  - apply Byte.of_N_None_iff in E.
    pose proof (N.mod_lt n 256). lia.
Qed.

Lemma byte_of_N_to_N (b : byte) : byte_of_N (Byte.to_N b) = b.
Proof.
  unfold byte_of_N. pose proof (Byte.to_N_bounded b).
  rewrite N.mod_small by lia. rewrite Byte.of_to_N. reflexivity.
Qed.

Lemma bytes_to_N_lt (buf : list byte) : Forall (fun d => (d < 256)%N) (bytes_to_N buf).
Proof.
  unfold bytes_to_N. apply Forall_map, Forall_forall. intros b _.
  pose proof (Byte.to_N_bounded b). lia.
Qed.

Lemma bytes_of_to_N (buf : list byte) : map byte_of_N (bytes_to_N buf) = buf.
Proof.
  unfold bytes_to_N. rewrite map_map.
  rewrite (map_ext _ (fun b => b)) by apply byte_of_N_to_N. apply map_id.
Qed.

Lemma bytes_to_of_N (ds : list N) :
  Forall (fun d => (d < 256)%N) ds -> bytes_to_N (map byte_of_N ds) = ds.
Proof.
  unfold bytes_to_N. induction 1 as [|d ds Hd _ IH]; [reflexivity|].
  simpl. rewrite IH, to_N_byte_of_N, N.mod_small by assumption. reflexivity.
Qed.

Lemma bytes_to_N_zeros (k : nat) : bytes_to_N (repeat x00 k) = repeat 0%N k.
Proof. unfold bytes_to_N. induction k; simpl; congruence. Qed.

(** ** Big integers and their byte forms *)

Lemma toByteArrayUnsigned_length (n : N) (k : nat) :
  (n < 256 ^ N.of_nat k)%N ->
  (List.length (BigInteger_toByteArrayUnsigned n) <= k)%nat.
Proof.
  intros Hn. unfold BigInteger_toByteArrayUnsigned. rewrite length_map.
  apply RadixFacts.to_digits_length; [lia|assumption].
Qed.

Lemma fromBuffer_toByteArrayUnsigned (n : N) :
  BigInteger_fromBuffer (BigInteger_toByteArrayUnsigned n) = n.
Proof.
  unfold BigInteger_fromBuffer, BigInteger_toByteArrayUnsigned.
  rewrite bytes_to_of_N by (apply RadixFacts.to_digits_lt; lia).
  apply RadixFacts.of_to_digits. lia.
Qed.

(** A number below [256 ^ size] fills exactly [size] bytes. *)
Lemma BigInteger_toBuffer_length (size : nat) (n : N) :
  (n < 256 ^ N.of_nat size)%N -> List.length (BigInteger_toBuffer size n) = size.
Proof.
  intros Hn. unfold BigInteger_toBuffer.
  pose proof (toByteArrayUnsigned_length n size Hn).
  rewrite length_app, repeat_length. lia.
Qed.

(** Reading a number's buffer gives the number, whatever the padding. *)
Lemma BigInteger_fromBuffer_toBuffer (size : nat) (n : N) :
  BigInteger_fromBuffer (BigInteger_toBuffer size n) = n.
Proof.
  unfold BigInteger_toBuffer.
  rewrite <- (fromBuffer_toByteArrayUnsigned n) at 3.
  unfold BigInteger_fromBuffer, bytes_to_N. rewrite map_app.
  fold (bytes_to_N (repeat x00 (size - List.length (BigInteger_toByteArrayUnsigned n)))).
  rewrite bytes_to_N_zeros. apply RadixFacts.of_digits_zeros.
Qed.

(** A buffer denotes a number below [256 ^ length]. *)
Lemma BigInteger_fromBuffer_lt (buf : list byte) :
  (BigInteger_fromBuffer buf < 256 ^ N.of_nat (List.length buf))%N.
Proof.
  unfold BigInteger_fromBuffer.
  replace (List.length buf) with (List.length (bytes_to_N buf))
    by (unfold bytes_to_N; apply length_map).
  apply RadixFacts.of_digits_lt, bytes_to_N_lt.
Qed.

(** The DER form of a number is its unsigned form, or one byte longer. *)
Lemma toDERInteger_length (n : N) :
  (List.length (BigInteger_toByteArrayUnsigned n)
     <= List.length (BigInteger_toDERInteger n)
     <= S (List.length (BigInteger_toByteArrayUnsigned n)))%nat.
Proof.
  unfold BigInteger_toDERInteger.
  destruct (BigInteger_toByteArrayUnsigned n) as [|b rest]; [simpl; lia|].
  destruct (128 <=? Byte.to_N b)%N; simpl; lia.
Qed.

(** A number whose DER form has 32 bytes: its top bit in 32 bytes is
    clear, and it has 31 bytes with the top bit set or 32 bytes. *)
Lemma toDERInteger_32_range (n : N) :
  List.length (BigInteger_toDERInteger n) = 32%nat ->
  (2 ^ 247 <= n < 2 ^ 255)%N.
Proof.
  unfold BigInteger_toDERInteger, BigInteger_toByteArrayUnsigned.
  pose proof (RadixFacts.to_digits_lt 256 n ltac:(discriminate)) as Hlt.
  pose proof (RadixFacts.to_digits_normal 256 n ltac:(discriminate)) as Hnormal.
  pose proof (RadixFacts.of_to_digits 256 n ltac:(discriminate)) as Hvalue.
  destruct (Radix.to_digits 256 n) as [|d ds]; [discriminate|].
  apply Forall_cons_iff in Hlt. destruct Hlt as [Hd Hds]. simpl in Hnormal.
  rewrite RadixFacts.of_digits_cons in Hvalue.
  pose proof (RadixFacts.of_digits_lt 256 ds Hds) as Hrest.
  cbn [map]. rewrite to_N_byte_of_N, N.mod_small by assumption.
  destruct (N.leb_spec 128 d) as [Htop|Htop]; cbn [List.length];
    rewrite length_map; intros Hlen.
  - replace (List.length ds) with 30%nat in * by lia.
    change (256 ^ N.of_nat 30)%N with (2 ^ 240)%N in *.
    change (2 ^ 247)%N with (128 * 2 ^ 240)%N.
    change (2 ^ 255)%N with (32768 * 2 ^ 240)%N. nia.
  - replace (List.length ds) with 31%nat in * by lia.
    change (256 ^ N.of_nat 31)%N with (2 ^ 248)%N in *.
    change (2 ^ 247)%N with (2 ^ 248 / 2)%N.
    change (2 ^ 255)%N with (128 * 2 ^ 248)%N.
    assert (2 ^ 248 / 2 <= 2 ^ 248)%N by (vm_compute; discriminate). nia.
Qed.

(** ** The base-58 codec loses nothing *)

Module Base58Facts.
Import Base58.

Lemma char_digit_digit_char (d : N) :
  (d < 58)%N -> char_digit (digit_char d) = Some d.
Proof.
  intros Hd. rewrite <- (N2Nat.id d).
  assert (Hk : (N.to_nat d < 58)%nat) by lia.
  revert Hk. generalize (N.to_nat d) as k. clear. intros k Hk.
  do 58 (destruct k as [|k]; [vm_compute; reflexivity|]). lia.
Qed.

Lemma chars_digits_app (a b : list ascii) (da db : list N) :
  chars_digits a = Some da -> chars_digits b = Some db ->
  chars_digits (a ++ b) = Some (da ++ db).
Proof.
  revert da. induction a as [|c a IH]; intros da Ha Hb.
  - simpl in *. injection Ha as <-. exact Hb.
  - simpl in *. destruct (char_digit c) as [d|]; [|discriminate].
    destruct (chars_digits a) as [ds|]; [|discriminate].
    injection Ha as <-. rewrite (IH ds eq_refl Hb). reflexivity.
Qed.

Lemma chars_digits_leaders (k : nat) :
  chars_digits (repeat LEADER k) = Some (repeat 0%N k).
Proof. induction k as [|k IH]; [reflexivity|]. simpl repeat. simpl. simpl in IH. rewrite IH. reflexivity. Qed.

Lemma chars_digits_digit_chars (ds : list N) :
  Forall (fun d => (d < 58)%N) ds -> chars_digits (map digit_char ds) = Some ds.
Proof.
  induction 1 as [|d ds Hd _ IH]; [reflexivity|].
  cbn [map chars_digits]. rewrite char_digit_digit_char, IH by assumption.
  reflexivity.
Qed.

(** Decoding an encoded byte string gives the byte string. *)
Lemma decode_encode (source : list byte) : decode (encode source) = Ok source.
Proof.
  unfold decode, encode. rewrite list_ascii_of_string_of_list_ascii.
  destruct (RadixFacts.leading_zeros_split (bytes_to_N source)) as [rest [Hsplit Hrest]].
  set (zeros := Radix.leading N.eqb 0%N (bytes_to_N source)) in *.
  clearbody zeros.
  set (digits := Radix.to_digits 58 (Radix.of_digits 256 (bytes_to_N source))).
  assert (Hdigits : Forall (fun d => (d < 58)%N) digits)
    by (apply RadixFacts.to_digits_lt; lia).
  rewrite (chars_digits_app _ _ _ _ (chars_digits_leaders zeros)
             (chars_digits_digit_chars digits Hdigits)).
  rewrite RadixFacts.leading_zeros_normal
    by (apply RadixFacts.to_digits_normal; lia).
  rewrite RadixFacts.of_digits_zeros. unfold digits.
  rewrite RadixFacts.of_to_digits by lia.
  rewrite Hsplit at 1. rewrite RadixFacts.of_digits_zeros.
  assert (Hlt : Forall (fun d => (d < 256)%N) rest).
  { pose proof (bytes_to_N_lt source) as H. rewrite Hsplit in H.
    apply Forall_app in H. apply H. }
  rewrite RadixFacts.to_of_digits by (try lia; assumption).
  rewrite <- (bytes_of_to_N source), Hsplit, map_app.
  f_equal. f_equal. clear. induction zeros as [|k IH]; [reflexivity|].
  simpl. rewrite <- IH. reflexivity.
Qed.

Lemma decode_empty : decode "" = Ok [].
Proof. reflexivity. Qed.

End Base58Facts.

(** ** The fixed-width big-endian form *)

Lemma unsigned_big_endian_length (width : nat) (n : N) :
  List.length (unsigned_big_endian width n) = width.
Proof. induction width as [|w IH]; simpl; congruence. Qed.

(** [width] big-endian bytes denote the number modulo [256 ^ width]. *)
Lemma fromBuffer_unsigned_big_endian (width : nat) (n : N) :
  BigInteger_fromBuffer (unsigned_big_endian width n) = (n mod 256 ^ N.of_nat width)%N.
Proof.
  unfold BigInteger_fromBuffer. induction width as [|w IH].
  - simpl. rewrite N.mod_1_r. reflexivity.
  - cbn [unsigned_big_endian bytes_to_N map]. fold (bytes_to_N (unsigned_big_endian w n)).
    rewrite RadixFacts.of_digits_cons, IH, to_N_byte_of_N.
    unfold bytes_to_N. rewrite length_map, unsigned_big_endian_length.
    rewrite Nat2N.inj_succ, N.pow_succ_r', (N.mul_comm 256).
    rewrite N.Div0.mod_mul_r. lia.
Qed.

(** Buffers of one length that denote one number are equal. *)
Lemma BigInteger_fromBuffer_inj (a b : list byte) :
  List.length a = List.length b ->
  BigInteger_fromBuffer a = BigInteger_fromBuffer b -> a = b.
Proof.
  intros Hlen Heq. rewrite <- (bytes_of_to_N a), <- (bytes_of_to_N b). f_equal.
  apply (RadixFacts.of_digits_inj 256).
  - unfold bytes_to_N. rewrite !length_map. assumption.
  - apply bytes_to_N_lt.
  - apply bytes_to_N_lt.
  - assumption.
Qed.

(** [toBuffer(size)] is the big-endian form in [size] bytes of a number
    that fits. *)
Lemma BigInteger_toBuffer_big_endian (size : nat) (n : N) :
  (n < 256 ^ N.of_nat size)%N ->
  BigInteger_toBuffer size n = unsigned_big_endian size n.
Proof.
  intros Hn. apply BigInteger_fromBuffer_inj.
  - rewrite BigInteger_toBuffer_length, unsigned_big_endian_length by assumption.
    reflexivity.
  - rewrite BigInteger_fromBuffer_toBuffer, fromBuffer_unsigned_big_endian.
    rewrite N.mod_small by assumption. reflexivity.
Qed.

(** The big-endian form of the number a buffer denotes is the buffer. *)
Lemma unsigned_big_endian_fromBuffer (buf : list byte) :
  unsigned_big_endian (List.length buf) (BigInteger_fromBuffer buf) = buf.
Proof.
  apply BigInteger_fromBuffer_inj.
  - apply unsigned_big_endian_length.
  - rewrite fromBuffer_unsigned_big_endian. apply N.mod_small.
    apply BigInteger_fromBuffer_lt.
Qed.

(** ** Slices and copies *)

Lemma slice_bounds_nat (len a b : nat) :
  slice_bounds len (Z.of_nat a) (Some (Z.of_nat b))
  = (Nat.min a len, (Nat.min b len - Nat.min a len)%nat).
Proof.
  unfold slice_bounds.
  destruct (Z.ltb_spec (Z.of_nat a) 0); [lia|].
  destruct (Z.ltb_spec (Z.of_nat b) 0); [lia|].
  f_equal; lia.
Qed.

Lemma slice_bounds_from (len a : nat) :
  slice_bounds len (Z.of_nat a) None = (Nat.min a len, (len - Nat.min a len)%nat).
Proof.
  unfold slice_bounds. destruct (Z.ltb_spec (Z.of_nat a) 0); [lia|].
  f_equal; lia.
Qed.

Lemma slice_bounds_last (len k : nat) :
  (0 < k)%nat ->
  slice_bounds len (- Z.of_nat k)%Z None = ((len - k)%nat, Nat.min k len).
Proof.
  intros Hk. unfold slice_bounds.
  destruct (Z.ltb_spec (- Z.of_nat k)%Z 0); [|lia]. f_equal; lia.
Qed.

Lemma slice_bounds_but_last (len k : nat) :
  (0 < k)%nat ->
  slice_bounds len 0 (Some (- Z.of_nat k)%Z) = (O, (len - k)%nat).
Proof.
  intros Hk. unfold slice_bounds.
  destruct (Z.ltb_spec (- Z.of_nat k)%Z 0); [|lia]. simpl. f_equal; lia.
Qed.

(** [buf.slice(a, b)] with [a <= b] inside the buffer. *)
Lemma Buffer_slice_inside (buf : list byte) (a b : nat) :
  (a <= b <= List.length buf)%nat ->
  Buffer_slice buf (Z.of_nat a) (Some (Z.of_nat b)) = firstn (b - a) (skipn a buf).
Proof.
  intros H. unfold Buffer_slice. rewrite slice_bounds_nat.
  rewrite !Nat.min_l by lia. reflexivity.
Qed.

(** [buf.slice(0, n)] is the first [n] bytes, or all of a shorter buffer. *)
Lemma Buffer_slice_first (buf : list byte) (n : nat) :
  Buffer_slice buf 0 (Some (Z.of_nat n)) = firstn n buf.
Proof.
  unfold Buffer_slice. rewrite (slice_bounds_nat _ 0 n). simpl.
  rewrite Nat.sub_0_r. destruct (Nat.le_ge_cases n (List.length buf)).
  - rewrite Nat.min_l by assumption. reflexivity.
  - rewrite Nat.min_r by assumption. rewrite !firstn_all2; trivial.
Qed.

Lemma Buffer_slice_from (buf : list byte) (a : nat) :
  (a <= List.length buf)%nat ->
  Buffer_slice buf (Z.of_nat a) None = skipn a buf.
Proof.
  intros H. unfold Buffer_slice. rewrite slice_bounds_from.
  rewrite Nat.min_l by assumption. apply firstn_all2.
  rewrite length_skipn. lia.
Qed.

(** [(a ++ b).slice(-k)] and [(a ++ b).slice(0, -k)] for [b] of [k] bytes. *)
Lemma Buffer_slice_last (a b : list byte) :
  b <> [] -> Buffer_slice (a ++ b) (- Z.of_nat (List.length b))%Z None = b.
Proof.
  intros Hb. unfold Buffer_slice.
  rewrite slice_bounds_last by (destruct b; [congruence|simpl; lia]).
  rewrite length_app, Nat.add_sub, Nat.min_l by lia.
  rewrite skipn_app, Nat.sub_diag, skipn_all. simpl. apply firstn_all.
Qed.

Lemma Buffer_slice_but_last (a b : list byte) :
  b <> [] -> Buffer_slice (a ++ b) 0 (Some (- Z.of_nat (List.length b))%Z) = a.
Proof.
  intros Hb. unfold Buffer_slice.
  rewrite slice_bounds_but_last by (destruct b; [congruence|simpl; lia]).
  rewrite length_app, Nat.add_sub. simpl.
  rewrite firstn_app, Nat.sub_diag, firstn_all. simpl. apply app_nil_r.
Qed.

Lemma firstn_app_exact {A : Type} (a b : list A) (n : nat) :
  List.length a = n -> firstn n (a ++ b) = a.
Proof.
  intros <-. rewrite firstn_app, Nat.sub_diag, firstn_all. simpl.
  apply app_nil_r.
Qed.

Lemma skipn_app_exact {A : Type} (a b : list A) (n : nat) :
  List.length a = n -> skipn n (a ++ b) = b.
Proof. intros <-. rewrite skipn_app, skipn_all, Nat.sub_diag. reflexivity. Qed.

(** A copy that fits replaces the bytes it lies over. *)
Lemma Buffer_copy_fits (source before over after : list byte) (targetStart : nat) :
  List.length before = targetStart ->
  List.length source = List.length over ->
  Buffer_copy source (before ++ over ++ after) targetStart
  = before ++ source ++ after.
Proof.
  intros <- Hlen. unfold Buffer_copy.
  replace (firstn (List.length (before ++ over ++ after) - List.length before) source)
    with source by (symmetry; apply firstn_all2; rewrite !length_app; lia).
  rewrite firstn_app, Nat.sub_diag, firstn_all. simpl firstn. rewrite app_nil_r.
  f_equal. f_equal.
  rewrite skipn_app. rewrite (@skipn_all2 _ _ before) by lia. simpl app.
  replace (List.length before + List.length source - List.length before)%nat
    with (List.length over) by lia.
  rewrite skipn_app, skipn_all, Nat.sub_diag. reflexivity.
Qed.

Lemma string_length_append (a b : string) :
  String.length (a ++ b) = (String.length a + String.length b)%nat.
Proof. induction a as [|c a IH]; simpl; congruence. Qed.

Lemma substring_all (str : string) : substring 0 (String.length str) str = str.
Proof. induction str as [|c str IH]; simpl; congruence. Qed.

Lemma substring_prefix (a b : string) : substring 0 (String.length a) (a ++ b) = a.
Proof. induction a as [|c a IH]; simpl; [destruct b; reflexivity|congruence]. Qed.

Lemma substring_suffix (a b : string) :
  substring (String.length a) (String.length b) (a ++ b) = b.
Proof. induction a as [|c a IH]; simpl; [apply substring_all|assumption]. Qed.

Lemma substring_short (str : string) (n : nat) :
  (String.length str <= n)%nat -> substring 0 n str = str.
Proof.
  revert n. induction str as [|c str IH]; intros n Hn.
  - destruct n; reflexivity.
  - destruct n as [|n]; simpl in *; [lia|]. rewrite IH by lia. reflexivity.
Qed.

(** [str.slice(0, n)] is the leading [n] characters, or all of a shorter
    string. *)
Lemma String_slice_first (str : string) (n : nat) :
  String_slice str 0 (Some (Z.of_nat n)) = substring 0 n str.
Proof.
  unfold String_slice. rewrite (slice_bounds_nat _ 0 n). simpl.
  rewrite Nat.sub_0_r. destruct (Nat.le_ge_cases n (String.length str)).
  - rewrite Nat.min_l by assumption. reflexivity.
  - rewrite Nat.min_r by assumption.
    rewrite substring_all, substring_short by assumption. reflexivity.
Qed.

Lemma String_slice_prefix (a b : string) :
  String_slice (a ++ b) 0 (Some (Z.of_nat (String.length a))) = a.
Proof. rewrite String_slice_first. apply substring_prefix. Qed.

Lemma String_slice_suffix (a b : string) :
  String_slice (a ++ b) (Z.of_nat (String.length a)) None = b.
Proof.
  unfold String_slice. rewrite slice_bounds_from, string_length_append.
  rewrite Nat.min_l by lia.
  replace (String.length a + String.length b - String.length a)%nat
    with (String.length b) by lia.
  apply substring_suffix.
Qed.

(** ** Bit masks of the recovery id *)

Lemma land_7_fits (x : Z) : x = Z.land x 7 <-> (0 <= x <= 7)%Z.
Proof.
  assert (E : Z.land x 7 = (x mod 8)%Z)
    by (change 7%Z with (Z.ones 3); rewrite Z.land_ones by lia; reflexivity).
  rewrite E. pose proof (Z.mod_pos_bound x 8 eq_refl).
  split; intros H'.
  - lia.
  - rewrite Z.mod_small; lia.
Qed.

Lemma land_3_mod (x : Z) : Z.land x 3 = (x mod 4)%Z.
Proof. change 3%Z with (Z.ones 2). rewrite Z.land_ones by lia. reflexivity. Qed.

(** ** Arithmetic on numbers *)

(** Within [2 ^ 53] of zero every integer is a double. *)
Lemma Number_round_exact (z : Z) :
  (- 2 ^ 53 <= z <= 2 ^ 53)%Z -> Number_round z = z.
Proof.
  intros Hz. unfold Number_round. cbv zeta.
  destruct (Z.leb_spec (Z.log2 (Z.abs z) - 52) 0) as [|He]; [reflexivity|].
  assert (Habs : Z.abs z = (2 ^ 53)%Z).
  { assert (Hpos : (0 < Z.abs z)%Z).
    { destruct (Z.eq_dec (Z.abs z) 0) as [E|]; [|lia].
      rewrite E in He. cbn in He. lia. }
    assert (Hlow : (2 ^ 53 <= Z.abs z)%Z).
    { destruct (Z.lt_ge_cases (Z.abs z) (2 ^ 53)) as [Hlt|]; [|assumption].
      apply Z.log2_lt_pow2 in Hlt; lia. }
    lia. }
  assert (Hcases : z = (2 ^ 53)%Z \/ z = (- 2 ^ 53)%Z) by lia.
  destruct Hcases as [-> | ->]; vm_compute; reflexivity.
Qed.

Lemma ToInt32_mod_4 (z : Z) : (ToInt32 z mod 4 = z mod 4)%Z.
Proof.
  unfold ToInt32.
  rewrite (Z.mod_eq (z + 2 ^ 31) (2 ^ 32)) by lia.
  set (q := ((z + 2 ^ 31) / 2 ^ 32)%Z). clearbody q.
  replace (z + 2 ^ 31 - 2 ^ 32 * q - 2 ^ 31)%Z with (z + (- q * 2 ^ 30) * 4)%Z by lia.
  apply Z.mod_add. lia.
Qed.

(** The mask 3 keeps the low two bits of an integer. *)
Lemma Number_and_3 (z : Z) : Number_and z 3 = (z mod 4)%Z.
Proof.
  unfold Number_and. change (ToInt32 3) with 3%Z.
  rewrite land_3_mod. apply ToInt32_mod_4.
Qed.

(** [(i - 27) & 3] where the subtraction is exact. *)
Lemma recovery_mask (i0 : Z) :
  (- 2 ^ 53 <= i0 - 27 <= 2 ^ 53)%Z ->
  Number_and (Number_sub i0 27) 3 = ((i0 - 27) mod 4)%Z.
Proof.
  intros Hi. unfold Number_sub.
  rewrite Number_round_exact by assumption. apply Number_and_3.
Qed.

(** * The properties of [signature.js] *)

Section Properties.

Context {env : Collaborators}.

(** ** The byte form *)

Lemma pow_256_32 : (256 ^ N.of_nat 32 = 2 ^ 256)%N.
Proof. reflexivity. Qed.

(** The buffer of a signature whose fields fit. *)
Lemma toBuffer_fits (sg : Signature) :
  (0 <= i sg <= 255)%Z -> (r sg < 2 ^ 256)%N -> (s sg < 2 ^ 256)%N ->
  toBuffer sg
  = Ok (byte_of_N (Z.to_N (i sg))
          :: BigInteger_toBuffer 32 (r sg) ++ BigInteger_toBuffer 32 (s sg)).
Proof.
  intros Hi Hr Hs. unfold toBuffer, Buffer_writeUInt8, Buffer_alloc.
  destruct (Z.leb_spec 0 (i sg)); [|lia].
  destruct (Z.leb_spec (i sg) 255); [|lia].
  change (0 <? List.length (repeat x00 65))%nat with true.
  cbn [andb bind firstn app]. set (b := byte_of_N (Z.to_N (i sg))).
  pose proof (BigInteger_toBuffer_length 32 (r sg) Hr) as Hlr.
  pose proof (BigInteger_toBuffer_length 32 (s sg) Hs) as Hls.
  change (b :: skipn 1 (repeat x00 65))
    with ([b] ++ repeat x00 32 ++ repeat x00 32).
  rewrite (Buffer_copy_fits _ [b] (repeat x00 32) (repeat x00 32) 1)
    by (rewrite ?repeat_length; auto).
  rewrite <- (app_nil_r (repeat x00 32)).
  rewrite app_assoc.
  rewrite (Buffer_copy_fits _ ([b] ++ BigInteger_toBuffer 32 (r sg))
             (repeat x00 32) [] 33)
    by (rewrite ?length_app, ?repeat_length, ?Hlr; auto).
  rewrite app_nil_r, <- app_assoc. reflexivity.
Qed.

(** [fromBuffer] on a buffer of the wire layout. *)
Lemma fromBuffer_layout (b : byte) (rbuf sbuf : list byte) :
  List.length rbuf = 32%nat -> List.length sbuf = 32%nat ->
  (27 <= Z.of_N (Byte.to_N b) <= 34)%Z ->
  fromBuffer (VBuffer (b :: rbuf ++ sbuf))
  = Ok (mkSignature (BigInteger_fromBuffer rbuf) (BigInteger_fromBuffer sbuf)
          (Z.of_N (Byte.to_N b))).
Proof.
  intros Hr Hs Hb. unfold fromBuffer.
  assert (Hlen : List.length (b :: rbuf ++ sbuf) = 65%nat)
    by (simpl; rewrite length_app; lia).
  rewrite Hlen. cbn [Nat.eqb assert bind Buffer_readUInt8 nth_error].
  set (i0 := Z.of_N (Byte.to_N b)) in *.
  destruct (Z.eqb_spec (i0 - 27) (Z.land (i0 - 27) 7)) as [_|Hne];
    [|exfalso; apply Hne; apply land_7_fits; lia].
  cbn [assert bind].
  change 1%Z with (Z.of_nat 1). change 33%Z with (Z.of_nat 33).
  rewrite Buffer_slice_inside, Buffer_slice_from by lia.
  change (skipn 1 (b :: rbuf ++ sbuf)) with (rbuf ++ sbuf).
  change (skipn 33 (b :: rbuf ++ sbuf)) with (skipn 32 (rbuf ++ sbuf)).
  change (33 - 1)%nat with 32%nat.
  rewrite firstn_app_exact, skipn_app_exact by assumption. reflexivity.
Qed.

(** Parsing the buffer of a signature with a recovery id in 27..34 gives
    the signature back. *)
Lemma fromBuffer_toBuffer (sg : Signature) :
  (27 <= i sg <= 34)%Z -> (r sg < 2 ^ 256)%N -> (s sg < 2 ^ 256)%N ->
  exists buf, toBuffer sg = Ok buf /\ List.length buf = 65%nat
              /\ fromBuffer (VBuffer buf) = Ok sg.
Proof.
  intros Hi Hr Hs. rewrite toBuffer_fits by (assumption || lia).
  eexists. split; [reflexivity|].
  pose proof (BigInteger_toBuffer_length 32 (r sg) Hr) as Hlr.
  pose proof (BigInteger_toBuffer_length 32 (s sg) Hs) as Hls.
  assert (Hb : Z.of_N (Byte.to_N (byte_of_N (Z.to_N (i sg)))) = i sg).
  { rewrite to_N_byte_of_N, N.mod_small by lia. lia. }
  split; [simpl; rewrite length_app; lia|].
  rewrite fromBuffer_layout by (assumption || lia).
  rewrite !BigInteger_fromBuffer_toBuffer, Hb. destruct sg; reflexivity.
Qed.

Lemma buffer_65_layout (buf : list byte) :
  List.length buf = 65%nat ->
  exists b, buf = b :: firstn 32 (skipn 1 buf) ++ firstn 32 (skipn 33 buf).
Proof.
  intros Hlen. destruct buf as [|b rest]; [discriminate|]. exists b.
  injection Hlen as Hlen.
  change (skipn 1 (b :: rest)) with rest.
  change (skipn 33 (b :: rest)) with (skipn 32 rest).
  rewrite (@firstn_all2 _ 32 (skipn 32 rest))
    by (rewrite length_skipn; lia).
  rewrite firstn_skipn. reflexivity.
Qed.

(** C3 (amended). For every signature whose [r] and [s] fit in 32 bytes and
    whose recovery id is an unsigned byte, [toBuffer()] returns exactly 65
    bytes: byte 0 is the recovery id, bytes 1-32 are [r] and bytes 33-64
    are [s], each unsigned big-endian, zero-padded to 32 bytes. *)
Theorem toBuffer_wire_layout (sg : Signature) :
  (r sg < 2 ^ 256)%N -> (s sg < 2 ^ 256)%N -> (0 <= i sg <= 255)%Z ->
  exists buf,
    toBuffer sg = Ok buf
    /\ List.length buf = 65%nat
    /\ Buffer_readUInt8 buf 0 = Ok (i sg)
    /\ Buffer_slice buf 1 (Some 33%Z) = unsigned_big_endian 32 (r sg)
    /\ Buffer_slice buf 33 (Some 65%Z) = unsigned_big_endian 32 (s sg).
Proof.
  intros Hr Hs Hi. rewrite toBuffer_fits by assumption.
  rewrite !BigInteger_toBuffer_big_endian by assumption.
  set (rbuf := unsigned_big_endian 32 (r sg)).
  set (sbuf := unsigned_big_endian 32 (s sg)).
  assert (Hlr : List.length rbuf = 32%nat) by apply unsigned_big_endian_length.
  assert (Hls : List.length sbuf = 32%nat) by apply unsigned_big_endian_length.
  clearbody rbuf sbuf.
  eexists. split; [reflexivity|].
  assert (Hlen : List.length (byte_of_N (Z.to_N (i sg)) :: rbuf ++ sbuf) = 65%nat)
    by (simpl; rewrite length_app; lia).
  split; [exact Hlen|]. split.
  - unfold Buffer_readUInt8. cbn [nth_error].
    rewrite to_N_byte_of_N, N.mod_small by lia. f_equal. lia.
  - change 1%Z with (Z.of_nat 1). change 33%Z with (Z.of_nat 33).
    change 65%Z with (Z.of_nat 65).
    rewrite !Buffer_slice_inside by lia.
    change (skipn 1 (byte_of_N (Z.to_N (i sg)) :: rbuf ++ sbuf)) with (rbuf ++ sbuf).
    change (skipn 33 (byte_of_N (Z.to_N (i sg)) :: rbuf ++ sbuf))
      with (skipn 32 (rbuf ++ sbuf)).
    change (33 - 1)%nat with 32%nat. change (65 - 33)%nat with 32%nat.
    rewrite firstn_app_exact, skipn_app_exact by assumption.
    split; [reflexivity|]. rewrite <- Hls. apply firstn_all.
Qed.

(** C5. [fromBuffer] fails on what is not a buffer and on a buffer that is
    not 65 bytes long; on 65 bytes it fails unless byte 0, less 27, is
    unchanged by the mask 7, that is unless byte 0 is in 27..34; when it
    succeeds the recovery id is byte 0 and [r], [s] are the unsigned
    big-endian numbers of bytes 1-32 and 33-64. *)
Theorem fromBuffer_checks :
  (forall v, (forall buf, v <> VBuffer buf) ->
     fromBuffer v = Throw (AssertionError "Buffer is required"))
  /\ (forall buf, List.length buf <> 65%nat ->
        fromBuffer (VBuffer buf) = Throw (AssertionError "Invalid signature length"))
  /\ (forall buf, List.length buf = 65%nat ->
        exists b, nth_error buf 0 = Some b /\
          let i0 := Z.of_N (Byte.to_N b) in
          ((i0 - 27 = Z.land (i0 - 27) 7)%Z <-> (27 <= i0 <= 34)%Z)
          /\ (~ (27 <= i0 <= 34)%Z ->
              fromBuffer (VBuffer buf)
              = Throw (AssertionError "Invalid signature parameter"))
          /\ ((27 <= i0 <= 34)%Z ->
              exists sg, fromBuffer (VBuffer buf) = Ok sg
                /\ i sg = i0
                /\ r sg = BigInteger_fromBuffer (firstn 32 (skipn 1 buf))
                /\ s sg = BigInteger_fromBuffer (firstn 32 (skipn 33 buf))
                /\ unsigned_big_endian 32 (r sg) = firstn 32 (skipn 1 buf)
                /\ unsigned_big_endian 32 (s sg) = firstn 32 (skipn 33 buf))).
Proof.
  split; [|split].
  - intros v Hv. destruct v; try reflexivity. exfalso. eapply Hv. reflexivity.
  - intros buf Hlen. unfold fromBuffer.
    destruct (Nat.eqb_spec (List.length buf) 65); [contradiction|reflexivity].
  - intros buf Hlen. destruct (buffer_65_layout buf Hlen) as [b Hbuf].
    set (rbuf := firstn 32 (skipn 1 buf)) in *.
    set (sbuf := firstn 32 (skipn 33 buf)) in *.
    assert (Hlr : List.length rbuf = 32%nat)
      by (unfold rbuf; rewrite length_firstn, length_skipn; lia).
    assert (Hls : List.length sbuf = 32%nat)
      by (unfold sbuf; rewrite length_firstn, length_skipn; lia).
    clearbody rbuf sbuf. subst buf.
    exists b. split; [reflexivity|]. cbv zeta.
    split; [|split].
    + rewrite land_7_fits. lia.
    + intros Hout. unfold fromBuffer. rewrite Hlen.
      cbn [Nat.eqb assert bind Buffer_readUInt8 nth_error].
      destruct (Z.eqb_spec (Z.of_N (Byte.to_N b) - 27)
                  (Z.land (Z.of_N (Byte.to_N b) - 27) 7)) as [Heq|]; [|reflexivity].
      apply land_7_fits in Heq. lia.
    + intros Hin. rewrite fromBuffer_layout by assumption.
      eexists. split; [reflexivity|]. cbn [r s i].
      pose proof (unsigned_big_endian_fromBuffer rbuf) as Hrb.
      pose proof (unsigned_big_endian_fromBuffer sbuf) as Hsb.
      rewrite Hlr in Hrb. rewrite Hls in Hsb. auto.
Qed.

(** ** The signing loop *)

Lemma toDERInteger_bound (n : N) :
  (n < 2 ^ 256)%N -> (List.length (BigInteger_toDERInteger n) <= 33)%nat.
Proof.
  intros Hn. pose proof (toDERInteger_length n) as H.
  pose proof (toByteArrayUnsigned_length n 32 Hn). lia.
Qed.

Lemma nth_error_skip4 {A : Type} (a b c d : A) (l : list A) (k : nat) :
  nth_error (a :: b :: c :: d :: l) (4 + k) = nth_error l k.
Proof. reflexivity. Qed.

(** The test of the loop holds exactly when both DER integers have 32
    bytes. *)
Lemma canonical_der_iff (ecsignature : ECSignature) :
  (ec_r ecsignature < 2 ^ 256)%N -> (ec_s ecsignature < 2 ^ 256)%N ->
  canonical_der (ECSignature_toDER ecsignature) = true
  <-> List.length (BigInteger_toDERInteger (ec_r ecsignature)) = 32%nat
      /\ List.length (BigInteger_toDERInteger (ec_s ecsignature)) = 32%nat.
Proof.
  intros Hr Hs. unfold ECSignature_toDER, canonical_der. cbv zeta.
  pose proof (toDERInteger_bound _ Hr) as Hbr.
  pose proof (toDERInteger_bound _ Hs) as Hbs.
  set (rBa := BigInteger_toDERInteger (ec_r ecsignature)) in *.
  set (sBa := BigInteger_toDERInteger (ec_s ecsignature)) in *.
  clearbody rBa sBa. cbn [nth_error].
  rewrite to_N_byte_of_N, N.mod_small, Nat2N.id by lia.
  replace (5 + List.length rBa)%nat with (4 + S (List.length rBa))%nat by lia.
  rewrite nth_error_skip4, nth_error_app2 by lia.
  replace (S (List.length rBa) - List.length rBa)%nat with 1%nat by lia.
  cbn [nth_error].
  rewrite to_N_byte_of_N, N.mod_small by lia.
  rewrite andb_true_iff, !N.eqb_eq. lia.
Qed.

(** What the loop does once an attempt is canonical. *)
Lemma signHash_loop_result (dataSha256 : list byte) (privateKey : PrivateKey)
  (e : N) (fuel : nat) :
  forall nonce log res,
    signHash_loop fuel dataSha256 privateKey e nonce = Some (log, res) ->
    exists k : nat,
      (k < fuel)%nat
      /\ canonical_der (ECSignature_toDER
           (ecdsa_sign dataSha256 (PrivateKey_d privateKey) (nonce + Z.of_nat k)))
         = true
      /\ (forall j : nat, (j < k)%nat ->
            canonical_der (ECSignature_toDER
              (ecdsa_sign dataSha256 (PrivateKey_d privateKey) (nonce + Z.of_nat j)))
            = false)
      /\ res =
         let ecsignature :=
           ecdsa_sign dataSha256 (PrivateKey_d privateKey) (nonce + Z.of_nat k) in
         (p <- ecdsa_calcPubKeyRecoveryParam e ecsignature
                 (PrivateKey_toPublic_Q privateKey) ;;
          Signature_new (Some (ec_r ecsignature)) (Some (ec_s ecsignature))
            (Some (p + 4 + 27)%Z)).
Proof.
  induction fuel as [|fuel IH]; intros nonce log res Hrun; [discriminate|].
  cbn [signHash_loop] in Hrun. cbv zeta in Hrun.
  destruct (canonical_der (ECSignature_toDER
              (ecdsa_sign dataSha256 (PrivateKey_d privateKey) nonce))) eqn:Hc.
  - injection Hrun as <- <-. exists O. rewrite Z.add_0_r.
    split; [lia|]. split; [exact Hc|]. split; [intros j Hj; lia|reflexivity].
  - destruct (signHash_loop fuel dataSha256 privateKey e (nonce + 1))
      as [[log' res']|] eqn:Hrest; [|discriminate].
    injection Hrun as <- <-.
    destruct (IH _ _ _ Hrest) as [k [Hk [Hck [Hbefore Hres]]]].
    exists (S k).
    replace (nonce + Z.of_nat (S k))%Z with (nonce + 1 + Z.of_nat k)%Z by lia.
    split; [lia|]. split; [exact Hck|]. split; [|exact Hres].
    intros [|j] Hj.
    + rewrite Z.add_0_r. exact Hc.
    + replace (nonce + Z.of_nat (S j))%Z with (nonce + 1 + Z.of_nat j)%Z by lia.
      apply Hbefore. lia.
Qed.

(** The loop passes the attempts that are not canonical and ends at the
    first that is. *)
Lemma signHash_loop_first (dataSha256 : list byte) (privateKey : PrivateKey)
  (e : N) (k : nat) :
  forall nonce fuel,
    canonical_der (ECSignature_toDER
      (ecdsa_sign dataSha256 (PrivateKey_d privateKey) (nonce + Z.of_nat k)))
    = true ->
    (forall j : nat, (j < k)%nat ->
       canonical_der (ECSignature_toDER
         (ecdsa_sign dataSha256 (PrivateKey_d privateKey) (nonce + Z.of_nat j)))
       = false) ->
    (k < fuel)%nat ->
    exists log,
      signHash_loop fuel dataSha256 privateKey e nonce
      = Some (log,
              let ecsignature :=
                ecdsa_sign dataSha256 (PrivateKey_d privateKey)
                  (nonce + Z.of_nat k) in
              (p <- ecdsa_calcPubKeyRecoveryParam e ecsignature
                      (PrivateKey_toPublic_Q privateKey) ;;
               Signature_new (Some (ec_r ecsignature)) (Some (ec_s ecsignature))
                 (Some (p + 4 + 27)%Z))).
Proof.
  induction k as [|k IH]; intros nonce fuel Hc Hbefore Hfuel;
    (destruct fuel as [|fuel]; [lia|]); cbn [signHash_loop]; cbv zeta.
  - rewrite Z.add_0_r in *. rewrite Hc. eauto.
  - pose proof (Hbefore O ltac:(lia)) as H0. rewrite Z.add_0_r in H0. rewrite H0.
    replace (nonce + Z.of_nat (S k))%Z with (nonce + 1 + Z.of_nat k)%Z in * by lia.
    destruct (IH (nonce + 1)%Z fuel Hc) as [log Hrun]; [|lia|].
    + intros j Hj. specialize (Hbefore (S j) ltac:(lia)).
      replace (nonce + Z.of_nat (S j))%Z with (nonce + 1 + Z.of_nat j)%Z in Hbefore
        by lia.
      exact Hbefore.
    + rewrite Hrun. eauto.
Qed.

(** The loop does not end on an attempt that is not canonical. *)
Lemma signHash_loop_none (dataSha256 : list byte) (privateKey : PrivateKey)
  (e : N) (fuel : nat) (nonce : Z) :
  (forall j : nat, (j < fuel)%nat ->
     canonical_der (ECSignature_toDER
       (ecdsa_sign dataSha256 (PrivateKey_d privateKey) (nonce + Z.of_nat j)))
     = false) ->
  signHash_loop fuel dataSha256 privateKey e nonce = None.
Proof.
  intros Hnone.
  destruct (signHash_loop fuel dataSha256 privateKey e nonce)
    as [[log res]|] eqn:Hrun; [|reflexivity].
  destruct (signHash_loop_result _ _ _ _ _ _ _ Hrun) as [k [Hk [Hc _]]].
  rewrite (Hnone k Hk) in Hc. discriminate.
Qed.

(** A signature the loop returns: the attempt it comes from and its
    recovery id. *)
Lemma signHash_loop_signature (dataSha256 : list byte) (privateKey : PrivateKey)
  (e : N) (fuel : nat) (nonce : Z) (log : list Z) (sg : Signature) :
  signHash_loop fuel dataSha256 privateKey e nonce = Some (log, Ok sg) ->
  exists (k : nat) (p : Z),
    ecdsa_sign dataSha256 (PrivateKey_d privateKey) (nonce + Z.of_nat k)
    = mkECSignature (r sg) (s sg)
    /\ canonical_der (ECSignature_toDER (mkECSignature (r sg) (s sg))) = true
    /\ (forall j : nat, (j < k)%nat ->
          canonical_der (ECSignature_toDER
            (ecdsa_sign dataSha256 (PrivateKey_d privateKey) (nonce + Z.of_nat j)))
          = false)
    /\ ecdsa_calcPubKeyRecoveryParam e (mkECSignature (r sg) (s sg))
         (PrivateKey_toPublic_Q privateKey) = Ok p
    /\ i sg = (p + 4 + 27)%Z.
Proof.
  intros Hrun.
  destruct (signHash_loop_result _ _ _ _ _ _ _ Hrun) as [k [_ [Hc [Hbefore Hres]]]].
  cbv zeta in Hres.
  destruct (ecdsa_sign dataSha256 (PrivateKey_d privateKey) (nonce + Z.of_nat k))
    as [er es] eqn:Hsig.
  destruct (ecdsa_calcPubKeyRecoveryParam e {| ec_r := er; ec_s := es |}
              (PrivateKey_toPublic_Q privateKey)) as [p|err] eqn:Hp;
    [|discriminate].
  cbn in Hres. injection Hres as ->. cbn [r s i].
  exists k, p. auto.
Qed.

Lemma sign_signHash (fuel : nat) (data : value) (privateKey : KeyInput)
  (log : list Z) (sg : Signature) :
  sign fuel data privateKey = Some (log, Ok sg) ->
  exists dataSha256, signHash fuel (VBuffer dataSha256) privateKey = Some (log, Ok sg).
Proof.
  unfold sign. destruct (data_buffer data) as [buf|err]; [|discriminate].
  intros H. exists (hash_sha256 buf). exact H.
Qed.

(** The fields of a signature [signHash] returns. *)
Lemma signHash_fields (fuel : nat) (data : value) (privateKey : KeyInput)
  (log : list Z) (sg : Signature) :
  sign_in_range -> recovery_param_in_range ->
  signHash fuel data privateKey = Some (log, Ok sg) ->
  (r sg < 2 ^ 256)%N /\ (s sg < 2 ^ 256)%N /\ (31 <= i sg <= 34)%Z.
Proof.
  intros Hrange Hparam. unfold signHash.
  destruct (digest_buffer data _) as [dataSha256|err]; [|discriminate].
  destruct (PrivateKey_from privateKey) as [key|err]; [|discriminate].
  intros Hrun. apply signHash_loop_signature in Hrun.
  destruct Hrun as [k [p [Hsig [_ [_ [Hp Hi]]]]]].
  destruct (Hrange dataSha256 (PrivateKey_d key) (0 + Z.of_nat k)%Z) as [Hr Hs].
  rewrite Hsig in Hr, Hs. cbn in Hr, Hs. apply Hparam in Hp. lia.
Qed.

(** The fields of a signature produced by [sign] or [signHash]. *)
Lemma signed_fields (sg : Signature) :
  sign_in_range -> recovery_param_in_range -> signed sg ->
  (r sg < 2 ^ 256)%N /\ (s sg < 2 ^ 256)%N /\ (31 <= i sg <= 34)%Z.
Proof.
  intros Hrange Hparam [fuel [data [privateKey [log [Hrun|Hrun]]]]].
  - apply sign_signHash in Hrun. destruct Hrun as [dataSha256 Hrun].
    eapply signHash_fields; eassumption.
  - eapply signHash_fields; eassumption.
Qed.

(** C4. For a 32-byte digest and a valid private key, [signHash] tries the
    nonces 0, 1, 2, ... and returns at the first attempt whose two DER
    integers both have 32 bytes. With such an attempt at [nonce], and the
    0-3 parameter [p] found for it against the signer's public key, it
    returns the signature made of the [r] and [s] of that attempt and the
    recovery id [p + 4 + 27], which is within 31..34; as long as every
    attempt is refused it returns nothing. Every signature [signHash]
    returns is of this kind. "Exactly 32 bytes" is the length of the DER
    integer, the signed big-endian form the loop measures: it puts [r] and
    [s] in [2 ^ 247, 2 ^ 255), so their shortest unsigned form has 31 or 32
    bytes. *)
Theorem signHash_canonical (dataSha256 : list byte) (keyInput : KeyInput)
  (privateKey : PrivateKey) :
  sign_in_range -> recovery_param_in_range ->
  List.length dataSha256 = 32%nat ->
  PrivateKey_from keyInput = Ok privateKey ->
  let attempt := ecdsa_sign dataSha256 (PrivateKey_d privateKey) in
  let canonical := fun ecsignature =>
    List.length (BigInteger_toDERInteger (ec_r ecsignature)) = 32%nat
    /\ List.length (BigInteger_toDERInteger (ec_s ecsignature)) = 32%nat in
  let param := fun ecsignature =>
    ecdsa_calcPubKeyRecoveryParam (BigInteger_fromBuffer dataSha256)
      ecsignature (PrivateKey_toPublic_Q privateKey) in
  (forall nonce p,
     (0 <= nonce)%Z -> canonical (attempt nonce) ->
     (forall earlier, (0 <= earlier < nonce)%Z -> ~ canonical (attempt earlier)) ->
     param (attempt nonce) = Ok p ->
     forall fuel, (Z.to_nat nonce < fuel)%nat ->
     (31 <= p + 4 + 27 <= 34)%Z
     /\ exists log,
          signHash fuel (VBuffer dataSha256) keyInput
          = Some (log, Ok (mkSignature (ec_r (attempt nonce))
                             (ec_s (attempt nonce)) (p + 4 + 27))))
  /\ (forall fuel,
        (forall earlier, (0 <= earlier < Z.of_nat fuel)%Z ->
           ~ canonical (attempt earlier)) ->
        signHash fuel (VBuffer dataSha256) keyInput = None)
  /\ (forall fuel log sg,
        signHash fuel (VBuffer dataSha256) keyInput = Some (log, Ok sg) ->
        exists nonce p,
          (0 <= nonce)%Z
          /\ attempt nonce = mkECSignature (r sg) (s sg)
          /\ (forall earlier, (0 <= earlier < nonce)%Z ->
                ~ canonical (attempt earlier))
          /\ List.length (BigInteger_toDERInteger (r sg)) = 32%nat
          /\ List.length (BigInteger_toDERInteger (s sg)) = 32%nat
          /\ (2 ^ 247 <= r sg < 2 ^ 255)%N
          /\ (2 ^ 247 <= s sg < 2 ^ 255)%N
          /\ (31 <= List.length (BigInteger_toByteArrayUnsigned (r sg)) <= 32)%nat
          /\ (31 <= List.length (BigInteger_toByteArrayUnsigned (s sg)) <= 32)%nat
          /\ param (attempt nonce) = Ok p
          /\ (0 <= p <= 3)%Z
          /\ i sg = (p + 4 + 27)%Z
          /\ (31 <= i sg <= 34)%Z).
Proof.
  intros Hrange Hparam Hlen Hkey attempt canonical param.
  assert (Hiff : forall nonce,
             canonical_der (ECSignature_toDER (attempt nonce)) = true
             <-> canonical (attempt nonce)).
  { intros nonce. destruct (Hrange dataSha256 (PrivateKey_d privateKey) nonce).
    apply canonical_der_iff; assumption. }
  assert (Hnot : forall nonce,
             ~ canonical (attempt nonce) ->
             canonical_der (ECSignature_toDER (attempt nonce)) = false).
  { intros nonce Hnc.
    destruct (canonical_der (ECSignature_toDER (attempt nonce))) eqn:Hc;
      [|reflexivity].
    exfalso. apply Hnc, Hiff, Hc. }
  assert (Hdigest : forall message,
             digest_buffer (VBuffer dataSha256) message = Ok dataSha256).
  { intros message. unfold digest_buffer. cbn [bind]. rewrite Hlen. reflexivity. }
  split; [|split].
  - intros nonce p Hnonce Hcan Hfirst Hp fuel Hfuel.
    split; [apply Hparam in Hp; lia|].
    unfold signHash. rewrite Hdigest, Hkey. cbv zeta.
    destruct (signHash_loop_first dataSha256 privateKey
                (BigInteger_fromBuffer dataSha256) (Z.to_nat nonce) 0%Z fuel)
      as [log Hrun].
    + rewrite Z.add_0_l, Z2Nat.id by lia. apply Hiff. exact Hcan.
    + intros j Hj. rewrite Z.add_0_l. apply Hnot, Hfirst. lia.
    + exact Hfuel.
    + exists log. rewrite Hrun. cbv zeta.
      rewrite Z.add_0_l, Z2Nat.id by lia.
      fold (attempt nonce). fold (param (attempt nonce)). rewrite Hp.
      reflexivity.
  - intros fuel Hnone. unfold signHash. rewrite Hdigest, Hkey. cbv zeta.
    apply signHash_loop_none. intros j Hj. rewrite Z.add_0_l.
    apply Hnot, Hnone. lia.
  - intros fuel log sg Hrun. unfold signHash in Hrun.
    rewrite Hdigest, Hkey in Hrun. cbv zeta in Hrun.
    apply signHash_loop_signature in Hrun.
    destruct Hrun as [k [p [Hsig [Hc [Hbefore [Hp Hi]]]]]].
    rewrite Z.add_0_l in Hsig. fold (attempt (Z.of_nat k)) in Hsig.
    destruct (Hrange dataSha256 (PrivateKey_d privateKey) (Z.of_nat k)) as [Hr Hs].
    fold (attempt (Z.of_nat k)) in Hr, Hs. rewrite Hsig in Hr, Hs. cbn in Hr, Hs.
    exists (Z.of_nat k), p. rewrite Hsig.
    assert (Hcan : canonical {| ec_r := r sg; ec_s := s sg |})
      by (rewrite <- Hsig; apply Hiff; rewrite Hsig; exact Hc).
    split; [lia|]. split; [reflexivity|].
    split.
    { intros earlier Hearlier Hcan'. apply Hiff in Hcan'.
      specialize (Hbefore (Z.to_nat earlier) ltac:(lia)).
      rewrite Z.add_0_l, Z2Nat.id in Hbefore by lia.
      fold (attempt earlier) in Hbefore. congruence. }
    destruct Hcan as [Hcr Hcs]. cbn [ec_r ec_s] in Hcr, Hcs.
    split; [exact Hcr|]. split; [exact Hcs|].
    split; [apply toDERInteger_32_range; exact Hcr|].
    split; [apply toDERInteger_32_range; exact Hcs|].
    split; [pose proof (toDERInteger_length (r sg)); lia|].
    split; [pose proof (toDERInteger_length (s sg)); lia|].
    split; [exact Hp|]. apply Hparam in Hp. lia.
Qed.

(** C1. For every signature [sign] or [signHash] produced, [toBuffer]
    gives 65 bytes from which [fromBuffer] returns a signature with the
    same [r], [s] and recovery id. *)
Theorem fromBuffer_toBuffer_signed (sg : Signature) :
  sign_in_range -> recovery_param_in_range -> signed sg ->
  exists buf parsed,
    toBuffer sg = Ok buf
    /\ fromBuffer (VBuffer buf) = Ok parsed
    /\ r parsed = r sg /\ s parsed = s sg /\ i parsed = i sg.
Proof.
  intros Hrange Hparam Hsigned.
  destruct (signed_fields sg Hrange Hparam Hsigned) as [Hr [Hs Hi]].
  destruct (fromBuffer_toBuffer sg) as [buf [Hbuf [_ Hparse]]];
    [lia|assumption|assumption|].
  exists buf, sg. auto.
Qed.

(** ** The text form *)

Lemma cache_hit_cases (signatureCache : option string) :
  (exists body, cache_hit signatureCache = Some body /\ signatureCache = Some body)
  \/ (cache_hit signatureCache = None
      /\ (signatureCache = None \/ signatureCache = Some EmptyString)).
Proof.
  destruct signatureCache as [body|]; [|right; auto]. simpl.
  destruct (String.eqb_spec body ""); [subst; right; auto|left; eauto].
Qed.

(** One call: the cache does not change what [toString] returns, and is
    left holding the body or as it was. *)
Lemma toString_cached (sg : Signature) (signatureCache : option string)
  (prefix : option string) :
  cache_of sg signatureCache ->
  fst (toString sg signatureCache prefix) = toString_uncached sg prefix
  /\ cache_of sg (snd (toString sg signatureCache prefix)).
Proof.
  intros Hcache. unfold toString, toString_uncached.
  destruct (cache_hit_cases signatureCache) as [[body [-> ->]]|[-> Hnone]].
  - simpl in Hcache. rewrite Hcache. split; [reflexivity|exact Hcache].
  - unfold signature_body. destruct (toBuffer sg) as [pub_buf|err] eqn:Hbuf.
    + cbn [bind fst snd cache_of]. change 4%Z with (Z.of_nat 4).
      rewrite Buffer_slice_first. unfold signature_body. rewrite Hbuf.
      split; reflexivity.
    + cbn [bind fst snd]. split; [reflexivity|exact Hcache].
Qed.

Lemma toString_calls_cached (sg : Signature) (prefixes : list (option string)) :
  forall signatureCache,
    cache_of sg signatureCache ->
    fst (toString_calls sg signatureCache prefixes)
    = map (toString_uncached sg) prefixes
    /\ cache_of sg (snd (toString_calls sg signatureCache prefixes)).
Proof.
  induction prefixes as [|prefix prefixes IH]; intros signatureCache Hcache.
  - split; [reflexivity|exact Hcache].
  - cbn [toString_calls map].
    destruct (toString_cached sg signatureCache prefix Hcache) as [Hout Hnext].
    destruct (toString sg signatureCache prefix) as [out cache'].
    cbn [fst snd] in Hout, Hnext. destruct (IH cache' Hnext) as [Houts Hlast].
    destruct (toString_calls sg cache' prefixes) as [outs cache''].
    cbn [fst snd] in *. split; [congruence|exact Hlast].
Qed.

(** A cache that was written stays written. *)
Lemma toString_calls_written (sg : Signature) (prefixes : list (option string)) :
  forall body, exists body',
    snd (toString_calls sg (Some body) prefixes) = Some body'.
Proof.
  induction prefixes as [|prefix prefixes IH]; intros body; [exists body; reflexivity|].
  cbn [toString_calls]. unfold toString at 1.
  destruct (cache_hit (Some body)) as [hit|].
  - destruct (IH body) as [body' Hlast].
    destruct (toString_calls sg (Some body) prefixes). exists body'. exact Hlast.
  - destruct (toBuffer sg) as [pub_buf|err].
    + match goal with
      | |- context [toString_calls sg (Some ?b) prefixes] =>
          destruct (IH b) as [body' Hlast];
          destruct (toString_calls sg (Some b) prefixes)
      end.
      exists body'. exact Hlast.
    + destruct (IH body) as [body' Hlast].
      destruct (toString_calls sg (Some body) prefixes). exists body'. exact Hlast.
Qed.

(** C10. After any earlier [toString] calls on an instance, a sequence of
    calls returns, for each prefix, what the computation without a cache
    returns: the prefix before base58 of the buffer followed by the first
    four bytes of its RIPEMD-160 digest. The cache holds that body, without
    a prefix. *)
Theorem toString_cache_transparent (sg : Signature)
  (earlier prefixes : list (option string)) :
  let signatureCache := snd (toString_calls sg None earlier) in
  fst (toString_calls sg signatureCache prefixes)
  = map (toString_uncached sg) prefixes
  /\ (forall buf, toBuffer sg = Ok buf ->
      let body := base58_encode (buf ++ firstn 4 (hash_ripemd160 buf)) in
      (forall prefix,
          toString_uncached sg prefix = Ok (prefix_or_default prefix ++ body)%string)
      /\ (signatureCache = None \/ signatureCache = Some body)
      /\ (earlier <> [] -> signatureCache = Some body)).
Proof.
  cbv zeta.
  destruct (toString_calls_cached sg earlier None I) as [_ Hcache].
  split; [apply toString_calls_cached; exact Hcache|].
  intros buf Hbuf.
  assert (Hbody : signature_body sg
                  = Ok (base58_encode (buf ++ firstn 4 (hash_ripemd160 buf))))
    by (unfold signature_body; rewrite Hbuf; reflexivity).
  split; [|split].
  - intros prefix. unfold toString_uncached. rewrite Hbody. reflexivity.
  - destruct (snd (toString_calls sg None earlier)) as [body|]; [|left; reflexivity].
    simpl in Hcache. right. congruence.
  - intros Hearlier. destruct earlier as [|prefix earlier]; [congruence|].
    cbn [toString_calls]. unfold toString at 1. cbn [cache_hit]. rewrite Hbuf.
    change 4%Z with (Z.of_nat 4). rewrite Buffer_slice_first.
    set (body := base58_encode (buf ++ firstn 4 (hash_ripemd160 buf))) in *.
    assert (Hsome : cache_of sg (Some body)) by exact Hbody.
    destruct (toString_calls_cached sg earlier (Some body) Hsome) as [_ Hlast].
    destruct (toString_calls_written sg earlier body) as [last Hwritten].
    destruct (toString_calls sg (Some body) earlier) as [outs cache'].
    cbn [snd] in *. subst cache'. simpl in Hlast. congruence.
Qed.

(** Parsing the text of a signature that parses from its buffer. *)
Lemma fromStringOrThrow_body (sg : Signature) (buf : list byte)
  (prefix : option string) :
  base58_lossless -> ripemd160_20_bytes ->
  fromBuffer (VBuffer buf) = Ok sg ->
  fromStringOrThrow
    (prefix_or_default prefix
       ++ base58_encode (buf ++ firstn 4 (hash_ripemd160 buf)))%string prefix
  = Ok sg.
Proof.
  intros Hcodec Hdigest Hparse. unfold fromStringOrThrow. cbv zeta.
  rewrite String_slice_prefix, String.eqb_refl. cbn [assert bind].
  rewrite String_slice_suffix, Hcodec. cbn [bind].
  set (checksum := firstn 4 (hash_ripemd160 buf)).
  assert (Hlen : List.length checksum = 4%nat)
    by (unfold checksum; rewrite length_firstn, Hdigest; reflexivity).
  assert (Hne : checksum <> []) by (destruct checksum; [discriminate|congruence]).
  change (-4)%Z with (- Z.of_nat 4)%Z. rewrite <- Hlen.
  rewrite Buffer_slice_last, Buffer_slice_but_last by assumption.
  change 4%Z with (Z.of_nat 4). rewrite Buffer_slice_first.
  fold checksum. rewrite String.eqb_refl. cbn [assert bind]. exact Hparse.
Qed.

(** C2. For every signature [sign] or [signHash] produced and every prefix
    (given, or left to the configured default), [toString] returns a text,
    whatever was cached by earlier calls, and [fromStringOrThrow] on that
    text with the same prefix returns a signature with the same [r], [s]
    and recovery id. *)
Theorem fromStringOrThrow_toString (sg : Signature) (prefix : option string)
  (earlier : list (option string)) :
  base58_lossless -> ripemd160_20_bytes ->
  sign_in_range -> recovery_param_in_range -> signed sg ->
  let signatureCache := snd (toString_calls sg None earlier) in
  exists text,
    fst (toString sg signatureCache prefix) = Ok text
    /\ fromStringOrThrow text prefix = Ok sg.
Proof.
  intros Hcodec Hdigest Hrange Hparam Hsigned. cbv zeta.
  destruct (signed_fields sg Hrange Hparam Hsigned) as [Hr [Hs Hi]].
  destruct (fromBuffer_toBuffer sg) as [buf [Hbuf [_ Hparse]]];
    [lia|assumption|assumption|].
  destruct (toString_calls_cached sg earlier None I) as [_ Hcache].
  destruct (toString_cached sg _ prefix Hcache) as [-> _].
  unfold toString_uncached, signature_body. rewrite Hbuf. cbn [bind].
  eexists. split; [reflexivity|].
  apply fromStringOrThrow_body; assumption.
Qed.

(** ** Recovery *)

(** C6. For a signature with recovery id [i] and a 32-byte digest, given
    as a buffer or as its hex string, [recoverHash] hands the curve
    adapter's [recoverPubKey] exactly what [(i - 27) & 3] evaluates to,
    with the digest as a number and the signature, and wraps the point it
    gets with [PublicKey.fromPoint]. The value is one of 0, 1, 2, 3. While
    [i - 27] is within [2 ^ 53] of zero, where numbers subtract exactly (so
    for every byte), it is the low two bits of the integer [i - 27]: the
    mask undoes the offset 27 and drops the flag 4. *)
Theorem recoverHash_recovery_param (sg : Signature) (dataSha256 : list byte) :
  List.length dataSha256 = 32%nat ->
  let i2 := Number_and (Number_sub (i sg) 27) 3 in
  recoverHash sg (VBuffer dataSha256)
  = (Q <- ecdsa_recoverPubKey (BigInteger_fromBuffer dataSha256) sg i2 ;;
     Ok (PublicKey_fromPoint Q))
  /\ (forall hex, Buffer_from_hex hex = Ok dataSha256 ->
        recoverHash sg (VString hex) = recoverHash sg (VBuffer dataSha256))
  /\ (0 <= i2 <= 3)%Z
  /\ ((- 2 ^ 53 <= i sg - 27 <= 2 ^ 53)%Z ->
        i2 = Z.land (i sg - 27) 3 /\ i2 = ((i sg - 27) mod 4)%Z)
  /\ (forall p, (0 <= p <= 3)%Z ->
        (i sg = p + 27 \/ i sg = p + 4 + 27)%Z -> i2 = p).
Proof.
  intros Hlen. cbv zeta.
  split; [|split; [|split; [|split]]].
  - unfold recoverHash, digest_buffer. cbn [bind]. rewrite Hlen. reflexivity.
  - intros hex Hhex. unfold recoverHash, digest_buffer. rewrite Hhex. reflexivity.
  - rewrite Number_and_3.
    pose proof (Z.mod_pos_bound (Number_sub (i sg) 27) 4 eq_refl). lia.
  - intros Hexact. rewrite land_3_mod. split; apply recovery_mask; exact Hexact.
  - intros p Hp Hi.
    assert (Hexact : (- 2 ^ 53 <= i sg - 27 <= 2 ^ 53)%Z).
    { assert (0 <= i sg - 27 <= 7)%Z by lia.
      assert (7 <= 2 ^ 53)%Z by (vm_compute; discriminate). lia. }
    rewrite recovery_mask by exact Hexact.
    destruct Hi as [Hi|Hi]; rewrite Hi.
    + replace (p + 27 - 27)%Z with p by lia. apply Z.mod_small. lia.
    + replace (p + 4 + 27 - 27)%Z with (p + 1 * 4)%Z by lia.
      rewrite Z.mod_add by lia. apply Z.mod_small. lia.
Qed.

(** ** Parsing text *)

(** C7. Whenever [fromStringOrThrow] fails, [fromString] returns null
    ([None]): on a text that does not start with the prefix, on a text that
    is not base58, on a checksum that does not match and on a payload
    [fromBuffer] refuses; and whenever [fromStringOrThrow] returns a
    signature, [fromString] returns the same one. *)
Theorem fromString_swallows (text : string) (prefix : option string) :
  (forall err, fromStringOrThrow text prefix = Throw err ->
     fromString text prefix = None)
  /\ (forall sg, fromStringOrThrow text prefix = Ok sg ->
        fromString text prefix = Some sg)
  /\ (let expected := prefix_or_default prefix in
      let body := String_slice text (Z.of_nat (String.length expected)) None in
      (substring 0 (String.length expected) text <> expected ->
         fromString text prefix = None)
      /\ (forall err, base58_decode body = Throw err ->
            fromString text prefix = None)
      /\ (forall decoded, base58_decode body = Ok decoded ->
            let payload := Buffer_slice decoded 0 (Some (-4)%Z) in
            let checksum := Buffer_slice decoded (-4) None in
            (Buffer_toString_hex checksum
               <> Buffer_toString_hex (firstn 4 (hash_ripemd160 payload)) ->
             fromString text prefix = None)
            /\ (forall err, fromBuffer (VBuffer payload) = Throw err ->
                  fromString text prefix = None))).
Proof.
  unfold fromString. split; [intros err ->; reflexivity|].
  split; [intros sg ->; reflexivity|]. cbv zeta.
  unfold fromStringOrThrow. cbv zeta. rewrite String_slice_first.
  change 4%Z with (Z.of_nat 4).
  split; [|split].
  - intros Hprefix.
    destruct (String.eqb_spec
                (substring 0 (String.length (prefix_or_default prefix)) text)
                (prefix_or_default prefix)); [contradiction|reflexivity].
  - intros err Hdecode.
    destruct (String.eqb _ (prefix_or_default prefix)); [|reflexivity].
    cbn [assert bind]. rewrite Hdecode. reflexivity.
  - intros decoded Hdecode.
    destruct (String.eqb _ (prefix_or_default prefix)); [|split; reflexivity].
    cbn [assert bind]. rewrite Hdecode. cbn [bind].
    rewrite Buffer_slice_first. split.
    + intros Hsum. destruct (String.eqb_spec
        (Buffer_toString_hex (Buffer_slice decoded (-4) None))
        (Buffer_toString_hex
           (firstn 4 (hash_ripemd160 (Buffer_slice decoded 0 (Some (-4)%Z))))));
        [contradiction|reflexivity].
    + intros err Hparse. destruct (String.eqb _ _); [|reflexivity].
      cbn [assert bind]. rewrite Hparse. reflexivity.
Qed.

(** C8 (the code falls short). On a text whose leading characters differ
    from the expected prefix [fromStringOrThrow] fails, and the message of
    the error it raises spells the expected prefix twice: it is the same
    whatever the text starts with. *)
Theorem fromStringOrThrow_wrong_prefix (text : string) (prefix : option string) :
  let expected := prefix_or_default prefix in
  substring 0 (String.length expected) text <> expected ->
  fromStringOrThrow text prefix
  = Throw (AssertionError
             ("Expecting key to begin with " ++ expected
                ++ ", instead got " ++ expected)).
Proof.
  cbv zeta. intros Hprefix. unfold fromStringOrThrow. cbv zeta.
  rewrite String_slice_first.
  destruct (String.eqb_spec
              (substring 0 (String.length (prefix_or_default prefix)) text)
              (prefix_or_default prefix)); [contradiction|reflexivity].
Qed.

(** ** The normaliser *)

(** The lenient parser refuses the empty text. *)
Lemma fromString_empty :
  config_address_prefix <> EmptyString \/ base58_decode EmptyString = Ok [] ->
  fromString EmptyString None = None.
Proof.
  intros Henv. unfold fromString, fromStringOrThrow. cbv zeta.
  cbn [prefix_or_default]. rewrite String_slice_first.
  replace (substring 0 (String.length config_address_prefix) EmptyString)
    with EmptyString by (destruct (String.length config_address_prefix); reflexivity).
  destruct (String.eqb_spec EmptyString config_address_prefix) as [Heq|Hne];
    [|reflexivity].
  destruct Henv as [Hcfg|Hdecode]; [congruence|].
  rewrite <- Heq. cbn [assert bind String.length Z.of_nat].
  change (String_slice EmptyString 0 None) with EmptyString.
  rewrite Hdecode. cbn [bind].
  change (Buffer_slice [] (-4) None) with (@nil byte).
  change (Buffer_slice [] 0 (Some (-4)%Z)) with (@nil byte).
  destruct (String.eqb _ _); reflexivity.
Qed.

(** C9. [Signature.from] returns a record whose [r], [s] and [i] are all
    truthy as it is; sends a string of 130 characters to [fromHex], any
    other string to [fromString] with the default prefix, and a buffer to
    [fromBuffer]; and raises a TypeError on null, on undefined, on a string
    [fromString] refuses and on everything else. *)
Theorem from_dispatch :
  let not_a_signature : result value :=
    Throw (TypeError "signature should be a hex string or buffer") in
  (forall o,
      truthy (get_r o) = true -> truthy (get_s o) = true ->
      truthy (get_i o) = true -> from o = Ok o)
  /\ (forall str, String.length str = 130%nat ->
        from (VString str) = (sg <- fromHex str ;; Ok (Signature_value sg)))
  /\ (forall str, String.length str <> 130%nat -> str <> EmptyString ->
        from (VString str)
        = match fromString str None with
          | Some sg => Ok (Signature_value sg)
          | None => not_a_signature
          end)
  /\ (from (VString EmptyString) = not_a_signature
      /\ (config_address_prefix <> EmptyString
          \/ base58_decode EmptyString = Ok [] ->
          fromString EmptyString None = None))
  /\ (forall buf,
        from (VBuffer buf)
        = (sg <- fromBuffer (VBuffer buf) ;; Ok (Signature_value sg)))
  /\ from VNull = not_a_signature
  /\ from VUndefined = not_a_signature
  /\ (forall o,
        (truthy (get_r o) && truthy (get_s o) && truthy (get_i o))%bool = false ->
        (forall str, o <> VString str) -> (forall buf, o <> VBuffer buf) ->
        from o = not_a_signature).
Proof.
  cbv zeta. repeat split.
  - intros o Hr Hs Hi. destruct o; try discriminate.
    unfold from. cbn [truthy get_r get_s get_i] in *. rewrite Hr, Hs, Hi.
    reflexivity.
  - intros str Hlen. unfold from. cbn [truthy get_r get_s get_i andb].
    destruct (String.eqb_spec str "") as [->|_]; [discriminate|].
    cbn [negb]. rewrite Hlen. reflexivity.
  - intros str Hlen Hne. unfold from. cbn [truthy get_r get_s get_i andb].
    destruct (String.eqb_spec str ""); [contradiction|]. cbn [negb].
    destruct (Nat.eqb_spec (String.length str) 130); [contradiction|reflexivity].
  - apply fromString_empty.
  - intros o Hshape Hstr Hbuf. unfold from. rewrite Hshape.
    destruct o; try reflexivity.
    + destruct (truthy (VBoolean b)); reflexivity.
    + destruct (truthy (VNumber z)); reflexivity.
    + exfalso. eapply Hstr. reflexivity.
    + exfalso. eapply Hbuf. reflexivity.
Qed.

End Properties.

(** * The statements on the sample environment *)

Module SampleFacts.

Lemma sample_sign_in_range : @sign_in_range Sample.env.
Proof.
  intros dataSha256 d nonce. cbn [ecdsa_sign Sample.env]. unfold Sample.sign.
  pose proof (N.mod_lt (BigInteger_fromBuffer dataSha256) (2 ^ 200) ltac:(discriminate)).
  pose proof (N.mod_lt d (2 ^ 200) ltac:(discriminate)).
  assert (2 ^ 255 + 2 ^ 200 <= 2 ^ 256)%N by (vm_compute; discriminate).
  assert (2 ^ 254 + 2 ^ 200 <= 2 ^ 256)%N by (vm_compute; discriminate).
  assert (2 ^ 253 + 2 ^ 200 <= 2 ^ 256)%N by (vm_compute; discriminate).
  assert (2 ^ 200 <= 2 ^ 256)%N by (vm_compute; discriminate).
  generalize dependent (BigInteger_fromBuffer dataSha256 mod 2 ^ 200)%N.
  generalize dependent (d mod 2 ^ 200)%N.
  generalize dependent (2 ^ 200)%N. generalize dependent (2 ^ 253)%N.
  generalize dependent (2 ^ 254)%N. generalize dependent (2 ^ 255)%N.
  generalize dependent (2 ^ 256)%N. intros.
  destruct (nonce =? 0)%Z; [|destruct (nonce =? 1)%Z]; cbn [ec_r ec_s]; lia.
Qed.

Lemma sample_recovery_param_in_range : @recovery_param_in_range Sample.env.
Proof.
  intros e ecsignature Q p. cbn [ecdsa_calcPubKeyRecoveryParam Sample.env].
  unfold Sample.calcPubKeyRecoveryParam. intros [= <-].
  generalize (N.mod_lt (e + ec_r ecsignature + Q) 4 ltac:(discriminate)).
  generalize ((e + ec_r ecsignature + Q) mod 4)%N. intros n Hn. lia.
Qed.

Lemma sample_base58_lossless : @base58_lossless Sample.env.
Proof. intros source. apply Base58Facts.decode_encode. Qed.

Lemma sample_ripemd160_20_bytes : @ripemd160_20_bytes Sample.env.
Proof.
  intros data. cbn [hash_ripemd160 Sample.env]. unfold Sample.digest.
  rewrite length_skipn, length_app, repeat_length. lia.
Qed.

Lemma sample_signHash_hello :
  @signHash Sample.env 3 (VBuffer Sample.hello) 7%N
  = Some ([], Ok Sample.hello_signature).
Proof. vm_compute. reflexivity. Qed.

Example sample_toHex : toHex Sample.hello_signature = Ok Sample.hello_hex.
Proof. vm_compute. reflexivity. Qed.

Example sample_toString :
  @toString Sample.env Sample.hello_signature None None
  = (Ok Sample.hello_text,
     Some (String_slice Sample.hello_text 3 None)).
Proof. vm_compute. reflexivity. Qed.

Example sample_from_hex :
  @from Sample.env (VString Sample.hello_hex)
  = Ok (Signature_value Sample.hello_signature).
Proof. vm_compute. reflexivity. Qed.

Example sample_from_text :
  @from Sample.env (VString Sample.hello_text)
  = Ok (Signature_value Sample.hello_signature).
Proof. vm_compute. reflexivity. Qed.

Example sample_from_damaged_text :
  @from Sample.env (VString (Sample.hello_text ++ "1"))
  = Throw (TypeError "signature should be a hex string or buffer").
Proof. vm_compute. reflexivity. Qed.

Example sample_signHash_log :
  @signHash Sample.env 1 (VBuffer Sample.hello) 7%N = None
  /\ @signHash Sample.env 3 (VString Sample.hello_hex) 7%N
     = Some ([], Throw (Error "dataSha256: 32 byte buffer requred")).
Proof. split; vm_compute; reflexivity. Qed.

(** Past [2 ^ 53] the subtraction rounds: for the recovery id
    [2 ^ 53 + 28] the double nearest to [i - 27] is [2 ^ 53], and the
    parameter handed over is 0, where the integer [i - 27] ends in the
    bits 01. *)
Example sample_recovery_param_rounded :
  let i0 := (2 ^ 53 + 28)%Z in
  Number_sub i0 27 = (2 ^ 53)%Z
  /\ Number_and (Number_sub i0 27) 3 = 0%Z
  /\ ((i0 - 27) mod 4 = 1)%Z
  /\ @recoverHash Sample.env (mkSignature 1 1 i0) (VBuffer Sample.hello)
     = Sample.recoverPubKey (BigInteger_fromBuffer Sample.hello)
         (mkSignature 1 1 i0) 0.
Proof. vm_compute. auto. Qed.

Lemma sample_hello_signed : @signed Sample.env Sample.hello_signature.
Proof.
  exists 3%nat, (VBuffer Sample.hello), 7%N, []. right.
  exact sample_signHash_hello.
Qed.

End SampleFacts.

(** C1 on the sample: the signed digest of "hello". *)
Lemma fromBuffer_toBuffer_signed_sample :
  exists buf parsed,
    toBuffer Sample.hello_signature = Ok buf
    /\ fromBuffer (VBuffer buf) = Ok parsed
    /\ r parsed = r Sample.hello_signature
    /\ s parsed = s Sample.hello_signature
    /\ i parsed = i Sample.hello_signature.
Proof.
  exact (fromBuffer_toBuffer_signed (env := Sample.env) Sample.hello_signature
           SampleFacts.sample_sign_in_range
           SampleFacts.sample_recovery_param_in_range
           SampleFacts.sample_hello_signed).
Defined.

(** C2 on the sample, with the prefix "SIG". *)
Lemma fromStringOrThrow_toString_sample :
  exists text,
    fst (@toString Sample.env Sample.hello_signature None (Some "SIG"%string))
    = Ok text
    /\ @fromStringOrThrow Sample.env text (Some "SIG"%string)
       = Ok Sample.hello_signature.
Proof.
  exact (fromStringOrThrow_toString (env := Sample.env) Sample.hello_signature
           (Some "SIG"%string) []
           SampleFacts.sample_base58_lossless
           SampleFacts.sample_ripemd160_20_bytes
           SampleFacts.sample_sign_in_range
           SampleFacts.sample_recovery_param_in_range
           SampleFacts.sample_hello_signed).
Defined.

(** C3 as first stated fails: a signature built with the recovery id 300
    has [r] and [s] that fit in 32 bytes, and [toBuffer] throws instead of
    returning 65 bytes for it. *)
Lemma toBuffer_recovery_id_300 :
  let sg := mkSignature 1 1 300 in
  (r sg < 2 ^ 256)%N /\ (s sg < 2 ^ 256)%N
  /\ toBuffer sg = Throw (RangeError "value or offset is out of bounds")
  /\ ~ (exists buf, toBuffer sg = Ok buf /\ List.length buf = 65%nat).
Proof.
  cbv zeta. split; [reflexivity|]. split; [reflexivity|].
  split; [reflexivity|]. intros [buf [Hbuf _]]. discriminate Hbuf.
Qed.

(** C3 (amended) on the sample. *)
Lemma toBuffer_wire_layout_sample :
  exists buf,
    toBuffer Sample.hello_signature = Ok buf
    /\ List.length buf = 65%nat
    /\ Buffer_readUInt8 buf 0 = Ok 34%Z
    /\ Buffer_slice buf 1 (Some 33%Z)
       = unsigned_big_endian 32 (r Sample.hello_signature)
    /\ Buffer_slice buf 33 (Some 65%Z)
       = unsigned_big_endian 32 (s Sample.hello_signature).
Proof.
  apply (toBuffer_wire_layout Sample.hello_signature).
  - vm_compute. reflexivity.
  - vm_compute. reflexivity.
  - cbn [i Sample.hello_signature]. lia.
Defined.

(** C4 on the sample: attempts 0 and 1 are refused and attempt 2 is
    canonical, so with three rounds the call returns the signature of
    attempt 2 with the recovery id 3 + 4 + 27, and with two rounds it has
    not returned. *)
Lemma signHash_canonical_sample :
  (exists log,
     @signHash Sample.env 3 (VBuffer Sample.hello) 7%N
     = Some (log, Ok Sample.hello_signature))
  /\ @signHash Sample.env 2 (VBuffer Sample.hello) 7%N = None.
Proof.
  destruct (signHash_canonical (env := Sample.env) Sample.hello 7%N 7%N
              SampleFacts.sample_sign_in_range
              SampleFacts.sample_recovery_param_in_range eq_refl eq_refl)
    as [Hmake [Hnone _]].
  assert (Hrefused : forall earlier, (0 <= earlier < 2)%Z ->
            ~ (List.length (BigInteger_toDERInteger
                 (ec_r (Sample.sign Sample.hello 7 earlier))) = 32%nat
               /\ List.length (BigInteger_toDERInteger
                    (ec_s (Sample.sign Sample.hello 7 earlier))) = 32%nat)).
  { intros earlier Hearlier.
    assert (Hcases : earlier = 0%Z \/ earlier = 1%Z) by lia.
    destruct Hcases as [-> | ->]; vm_compute; intros [H1 H2];
      first [discriminate H1 | discriminate H2]. }
  split.
  - destruct (Hmake 2%Z 3%Z) with (fuel := 3%nat) as [_ [log Hrun]].
    + lia.
    + vm_compute. split; reflexivity.
    + exact Hrefused.
    + vm_compute. reflexivity.
    + vm_compute. lia.
    + exists log. rewrite Hrun. vm_compute. reflexivity.
  - apply Hnone. exact Hrefused.
Defined.

(** C6 on the sample: the recovery id 34 is 3 + 4 + 27, and the parameter
    handed over is 3. *)
Lemma recoverHash_recovery_param_sample :
  @recoverHash Sample.env Sample.hello_signature (VBuffer Sample.hello)
  = (Q <- Sample.recoverPubKey (BigInteger_fromBuffer Sample.hello)
            Sample.hello_signature 3 ;;
     Ok Q).
Proof.
  exact (proj1 (recoverHash_recovery_param (env := Sample.env)
                  Sample.hello_signature Sample.hello eq_refl)).
Defined.

(** C8 on the sample: the text starts with "SIG", the message names "EOS"
    twice. *)
Lemma fromStringOrThrow_wrong_prefix_sample :
  @fromStringOrThrow Sample.env "SIGLn72zRCCukk" (Some "EOS"%string)
  = Throw (AssertionError "Expecting key to begin with EOS, instead got EOS").
Proof.
  apply (fromStringOrThrow_wrong_prefix (env := Sample.env)
           "SIGLn72zRCCukk" (Some "EOS"%string)).
  discriminate.
Defined.

(** C5 on the sample: a string, 64 bytes, 65 zero bytes, and 65 bytes
    that start with the recovery id 34. *)
Lemma fromBuffer_checks_sample :
  fromBuffer (VString "abc") = Throw (AssertionError "Buffer is required")
  /\ fromBuffer (VBuffer (repeat x00 64))
     = Throw (AssertionError "Invalid signature length")
  /\ fromBuffer (VBuffer (repeat x00 65))
     = Throw (AssertionError "Invalid signature parameter")
  /\ exists sg,
       fromBuffer (VBuffer (x22 :: repeat x01 64)) = Ok sg
       /\ i sg = 34%Z
       /\ unsigned_big_endian 32 (r sg) = repeat x01 32.
Proof.
  destruct fromBuffer_checks as [Hnot [Hlen Hok]].
  split; [apply Hnot; discriminate|].
  split; [apply Hlen; discriminate|].
  split.
  - destruct (Hok (repeat x00 65) eq_refl) as [b [Hb [_ [Hbad _]]]].
    injection Hb as <-. apply Hbad. cbn. lia.
  - destruct (Hok (x22 :: repeat x01 64) eq_refl) as [b [Hb [_ [_ Hgood]]]].
    injection Hb as <-.
    destruct Hgood as [sg [Hsg [Hi [_ [_ [Hr _]]]]]]; [cbn; lia|].
    exists sg. auto.
Defined.

(** C7 on the sample: a wrong prefix, the text of the signed digest, and
    that text with one more character. *)
Lemma fromString_swallows_sample :
  @fromString Sample.env "SIGLn72zRCCukk" (Some "EOS"%string) = None
  /\ @fromString Sample.env Sample.hello_text None = Some Sample.hello_signature
  /\ @fromString Sample.env (Sample.hello_text ++ "1") None = None.
Proof.
  split; [|split].
  - destruct (fromString_swallows (env := Sample.env) "SIGLn72zRCCukk"
                (Some "EOS"%string)) as [_ [_ [Hprefix _]]].
    apply Hprefix. discriminate.
  - destruct (fromString_swallows (env := Sample.env) Sample.hello_text None)
      as [_ [Hsame _]].
    apply Hsame. vm_compute. reflexivity.
  - destruct (fromString_swallows (env := Sample.env)
                (Sample.hello_text ++ "1") None) as [Hthrown _].
    eapply Hthrown. vm_compute. reflexivity.
Defined.

(** C9 on the sample: a signature, its hex string, its text, its buffer,
    and a number. *)
Lemma from_dispatch_sample :
  @from Sample.env (Signature_value Sample.hello_signature)
  = Ok (Signature_value Sample.hello_signature)
  /\ @from Sample.env (VString Sample.hello_hex)
     = (sg <- @fromHex Sample.env Sample.hello_hex ;; Ok (Signature_value sg))
  /\ @from Sample.env (VString Sample.hello_text)
     = Ok (Signature_value Sample.hello_signature)
  /\ @from Sample.env (VBuffer (repeat x00 65))
     = Throw (AssertionError "Invalid signature parameter")
  /\ @from Sample.env (VNumber 7)
     = Throw (TypeError "signature should be a hex string or buffer").
Proof.
  destruct (from_dispatch (env := Sample.env))
    as [Hrecord [Hhex [Htext [_ [Hbuffer [_ [_ Hother]]]]]]].
  split; [apply Hrecord; reflexivity|].
  split; [apply Hhex; reflexivity|].
  split; [rewrite Htext by discriminate; vm_compute; reflexivity|].
  split; [rewrite Hbuffer; reflexivity|].
  apply Hother; [reflexivity|discriminate|discriminate].
Defined.

(** C10 on the sample: three calls, with the default prefix, with "SIG"
    and with the default prefix again. *)
Lemma toString_cache_transparent_sample :
  fst (@toString_calls Sample.env Sample.hello_signature None
         [None; Some "SIG"%string; None])
  = [Ok Sample.hello_text;
     Ok ("SIG" ++ String_slice Sample.hello_text 3 None)%string;
     Ok Sample.hello_text].
Proof.
  refine (eq_trans
            (proj1 (toString_cache_transparent (env := Sample.env)
                      Sample.hello_signature []
                      [None; Some "SIG"%string; None])) _).
  vm_compute. reflexivity.
Defined.

(** * Further facts *)

(** ** The hex form loses nothing *)

Lemma hex_value_hex_digit (n : N) :
  (n < 16)%N -> Sample.hex_value (hex_digit n) = Some n.
Proof.
  intros Hn. rewrite <- (N2Nat.id n).
  assert (Hk : (N.to_nat n < 16)%nat) by lia.
  revert Hk. generalize (N.to_nat n) as k. clear. intros k Hk.
  do 16 (destruct k as [|k]; [reflexivity|]). lia.
Qed.

Lemma byte_nibbles (b : byte) :
  (Byte.to_N b / 16 < 16)%N /\ (Byte.to_N b mod 16 < 16)%N
  /\ byte_of_N (16 * (Byte.to_N b / 16) + Byte.to_N b mod 16) = b.
Proof.
  pose proof (Byte.to_N_bounded b) as Hb.
  split; [apply N.Div0.div_lt_upper_bound; lia|].
  split; [apply N.mod_lt; discriminate|].
  rewrite <- N.div_mod by discriminate. apply byte_of_N_to_N.
Qed.

Lemma Buffer_toString_hex_length (buf : list byte) :
  String.length (Buffer_toString_hex buf) = (2 * List.length buf)%nat.
Proof. induction buf as [|b buf IH]; simpl; [reflexivity|]. rewrite IH. lia. Qed.

(** Two buffers with one hex form are equal. *)
Lemma Buffer_toString_hex_inj (a : list byte) :
  forall b, Buffer_toString_hex a = Buffer_toString_hex b -> a = b.
Proof.
  induction a as [|x a IH]; intros [|y b] Heq; try discriminate; [reflexivity|].
  cbn [Buffer_toString_hex] in Heq. injection Heq as Hhi Hlo Hrest.
  destruct (byte_nibbles x) as [Hxh [Hxl Hx]].
  destruct (byte_nibbles y) as [Hyh [Hyl Hy]].
  apply (f_equal Sample.hex_value) in Hhi, Hlo.
  rewrite !hex_value_hex_digit in Hhi, Hlo by assumption.
  injection Hhi as Hhi. injection Hlo as Hlo.
  rewrite Hhi, Hlo, Hy in Hx. subst y. f_equal. apply IH. assumption.
Qed.

(** The sample's hex decoder reads back what [toString('hex')] wrote. *)
Lemma from_hex_toString_hex (buf : list byte) :
  Sample.from_hex (list_ascii_of_string (Buffer_toString_hex buf)) = buf.
Proof.
  induction buf as [|b buf IH]; [reflexivity|].
  cbn [Buffer_toString_hex list_ascii_of_string Sample.from_hex].
  destruct (byte_nibbles b) as [Hh [Hl Hb]].
  rewrite !hex_value_hex_digit by assumption. rewrite Hb, IH. reflexivity.
Qed.

(** ** Splitting strings and buffers *)

Lemma substring_skip (c : ascii) (str : string) (n m : nat) :
  substring (S n) m (String c str) = substring n m str.
Proof. reflexivity. Qed.

(** The leading [n] characters and [slice(n)] make up the string. *)
Lemma String_slice_split (str : string) :
  forall n,
    (substring 0 n str ++ String_slice str (Z.of_nat n) None)%string = str.
Proof.
  unfold String_slice.
  induction str as [|c str IH]; intros n.
  - rewrite slice_bounds_from. destruct n; reflexivity.
  - rewrite slice_bounds_from. destruct n as [|n].
    + cbn [Nat.min]. rewrite Nat.sub_0_r.
      change (substring 0 0 (String c str)) with EmptyString.
      cbn [append]. apply substring_all.
    + specialize (IH n). rewrite slice_bounds_from in IH.
      cbn [String.length Nat.min Nat.sub]. rewrite substring_skip.
      cbn [substring append]. f_equal. exact IH.
Qed.

(** A buffer of at least four bytes is [slice(0, -4)] followed by
    [slice(-4)]. *)
Lemma Buffer_slice_split_last (buf : list byte) :
  (4 <= List.length buf)%nat ->
  Buffer_slice buf 0 (Some (-4)%Z) ++ Buffer_slice buf (-4) None = buf.
Proof.
  intros Hlen. unfold Buffer_slice.
  change (-4)%Z with (- Z.of_nat 4)%Z.
  rewrite slice_bounds_but_last, slice_bounds_last by lia.
  rewrite Nat.min_l by lia. cbn [skipn].
  rewrite (@firstn_all2 _ 4) by (rewrite length_skipn; lia).
  apply firstn_skipn.
Qed.

Lemma Buffer_slice_but_last_length (buf : list byte) :
  List.length (Buffer_slice buf 0 (Some (-4)%Z)) = (List.length buf - 4)%nat.
Proof.
  unfold Buffer_slice. change (-4)%Z with (- Z.of_nat 4)%Z.
  rewrite slice_bounds_but_last by lia. cbn [skipn].
  rewrite length_firstn. lia.
Qed.

(** ** The base-58 codec is canonical *)

Module Base58Canonical.
Import Base58.

Lemma index_from_spec (alphabet : list ascii) (c : ascii) :
  forall k d,
    index_from k alphabet c = Some d ->
    (k <= d < k + N.of_nat (List.length alphabet))%N
    /\ nth (N.to_nat (d - k)) alphabet LEADER = c.
Proof.
  induction alphabet as [|a alphabet IH]; intros k d Hfound; [discriminate|].
  cbn [index_from] in Hfound. destruct (Ascii.eqb_spec a c) as [->|Hne].
  - injection Hfound as <-. rewrite N.sub_diag. cbn [List.length]. split; [lia|reflexivity].
  - apply IH in Hfound. destruct Hfound as [Hd Hnth]. cbn [List.length].
    split; [lia|].
    replace (N.to_nat (d - k)) with (S (N.to_nat (d - N.succ k))) by lia.
    exact Hnth.
Qed.

Lemma char_digit_spec (c : ascii) (d : N) :
  char_digit c = Some d -> digit_char d = c /\ (d < 58)%N.
Proof.
  intros Hfound. apply index_from_spec in Hfound.
  destruct Hfound as [Hd Hnth]. rewrite N.sub_0_r in Hnth.
  split; [exact Hnth|]. change (N.of_nat (List.length ALPHABET)) with 58%N in Hd. lia.
Qed.

Lemma chars_digits_spec (cs : list ascii) :
  forall ds,
    chars_digits cs = Some ds ->
    map digit_char ds = cs /\ Forall (fun d => (d < 58)%N) ds.
Proof.
  induction cs as [|c cs IH]; intros ds Hds.
  - injection Hds as <-. split; [reflexivity|constructor].
  - cbn [chars_digits] in Hds.
    destruct (char_digit c) as [d|] eqn:Hd; [|discriminate].
    destruct (chars_digits cs) as [ds'|]; [|discriminate].
    injection Hds as <-. apply char_digit_spec in Hd. destruct Hd as [Hc Hlt].
    destruct (IH ds' eq_refl) as [Hmap Hall].
    split; [cbn [map]; congruence|constructor; assumption].
Qed.

(** Encoding what a text decodes to gives the text. *)
Lemma encode_decode (text : string) (source : list byte) :
  decode text = Ok source -> encode source = text.
Proof.
  unfold decode.
  destruct (chars_digits (list_ascii_of_string text)) as [ds|] eqn:Hds;
    [|discriminate].
  intros [= <-]. apply chars_digits_spec in Hds. destruct Hds as [Hmap Hall].
  destruct (RadixFacts.leading_zeros_split ds) as [rest [Hsplit Hrest]].
  set (zeros := Radix.leading N.eqb 0%N ds) in *. clearbody zeros.
  assert (Hrest58 : Forall (fun d => (d < 58)%N) rest)
    by (rewrite Hsplit in Hall; apply Forall_app in Hall; apply Hall).
  unfold encode, bytes_to_N. rewrite map_app.
  fold (bytes_to_N (repeat x00 zeros)).
  fold (bytes_to_N (map byte_of_N (Radix.to_digits 256 (Radix.of_digits 58 ds)))).
  rewrite bytes_to_N_zeros.
  rewrite bytes_to_of_N by (apply RadixFacts.to_digits_lt; discriminate).
  rewrite RadixFacts.leading_zeros_normal
    by (apply RadixFacts.to_digits_normal; discriminate).
  rewrite RadixFacts.of_digits_zeros, RadixFacts.of_to_digits by discriminate.
  rewrite Hsplit at 1. rewrite RadixFacts.of_digits_zeros.
  rewrite RadixFacts.to_of_digits by (assumption || discriminate).
  rewrite <- (string_of_list_ascii_of_string text), <- Hmap, Hsplit, map_app.
  f_equal. f_equal. clear. induction zeros as [|k IH]; [reflexivity|].
  simpl. rewrite <- IH. reflexivity.
Qed.

End Base58Canonical.

(** * Further properties of [signature.js] *)

Section MoreProperties.

Context {env : Collaborators}.

(** ** The byte form is canonical *)

Lemma Buffer_copy_length (source target : list byte) (targetStart : nat) :
  (targetStart <= List.length target)%nat ->
  List.length (Buffer_copy source target targetStart) = List.length target.
Proof.
  intros Hstart. unfold Buffer_copy.
  rewrite !length_app, length_skipn, !length_firstn. lia.
Qed.

(** What [fromBuffer] accepts, and what it returns for it. *)
Lemma fromBuffer_accepts (v : value) (sg : Signature) :
  fromBuffer v = Ok sg ->
  exists b rbuf sbuf,
    v = VBuffer (b :: rbuf ++ sbuf)
    /\ List.length rbuf = 32%nat /\ List.length sbuf = 32%nat
    /\ (27 <= Z.of_N (Byte.to_N b) <= 34)%Z
    /\ sg = mkSignature (BigInteger_fromBuffer rbuf) (BigInteger_fromBuffer sbuf)
              (Z.of_N (Byte.to_N b)).
Proof.
  destruct v as [| | | | |buf| |]; try discriminate. intros Hparse.
  assert (Hlen : List.length buf = 65%nat).
  { unfold fromBuffer in Hparse.
    destruct (Nat.eqb_spec (List.length buf) 65); [assumption|discriminate]. }
  destruct (buffer_65_layout buf Hlen) as [b Hbuf].
  set (rbuf := firstn 32 (skipn 1 buf)) in *.
  set (sbuf := firstn 32 (skipn 33 buf)) in *.
  assert (Hlr : List.length rbuf = 32%nat)
    by (unfold rbuf; rewrite length_firstn, length_skipn; lia).
  assert (Hls : List.length sbuf = 32%nat)
    by (unfold sbuf; rewrite length_firstn, length_skipn; lia).
  clearbody rbuf sbuf. subst buf.
  assert (Hid : (27 <= Z.of_N (Byte.to_N b) <= 34)%Z).
  { destruct (Z.eqb_spec (Z.of_N (Byte.to_N b) - 27)
                (Z.land (Z.of_N (Byte.to_N b) - 27) 7)) as [Heq|Hne].
    - apply land_7_fits in Heq. lia.
    - exfalso. unfold fromBuffer in Hparse. rewrite Hlen in Hparse.
      cbn [Nat.eqb assert bind Buffer_readUInt8 nth_error] in Hparse.
      destruct (Z.eqb_spec (Z.of_N (Byte.to_N b) - 27)
                  (Z.land (Z.of_N (Byte.to_N b) - 27) 7));
        [contradiction|discriminate]. }
  rewrite fromBuffer_layout in Hparse by assumption. injection Hparse as <-.
  exists b, rbuf, sbuf. auto.
Qed.

(** The signature [fromBuffer] returns and the bytes it was given. *)
Lemma fromBuffer_back (v : value) (sg : Signature) :
  fromBuffer v = Ok sg ->
  (exists buf,
      v = VBuffer buf /\ List.length buf = 65%nat /\ toBuffer sg = Ok buf)
  /\ (27 <= i sg <= 34)%Z /\ (r sg < 2 ^ 256)%N /\ (s sg < 2 ^ 256)%N.
Proof.
  intros Hparse.
  destruct (fromBuffer_accepts v sg Hparse)
    as [b [rbuf [sbuf [-> [Hlr [Hls [Hid ->]]]]]]].
  cbn [r s i].
  pose proof (BigInteger_fromBuffer_lt rbuf) as Hr. rewrite Hlr in Hr.
  pose proof (BigInteger_fromBuffer_lt sbuf) as Hs. rewrite Hls in Hs.
  rewrite pow_256_32 in Hr, Hs.
  split; [|auto]. eexists. split; [reflexivity|].
  split; [simpl; rewrite length_app; lia|].
  rewrite toBuffer_fits by (cbn [r s i]; (assumption || lia)). cbn [r s i].
  rewrite N2Z.id, byte_of_N_to_N.
  rewrite !BigInteger_toBuffer_big_endian by (rewrite pow_256_32; assumption).
  pose proof (unsigned_big_endian_fromBuffer rbuf) as Hrb.
  pose proof (unsigned_big_endian_fromBuffer sbuf) as Hsb.
  rewrite Hlr in Hrb. rewrite Hls in Hsb. rewrite Hrb, Hsb. reflexivity.
Qed.

(** X1. Whatever [fromBuffer] accepts is a buffer of 65 bytes, the
    signature it returns has a recovery id in 27..34 and [r], [s] below
    [2 ^ 256], and [toBuffer] of that signature returns the very bytes that
    were parsed. So no two buffers parse to one signature. *)
Theorem toBuffer_fromBuffer (v : value) (sg : Signature) :
  fromBuffer v = Ok sg ->
  (exists buf,
      v = VBuffer buf /\ List.length buf = 65%nat /\ toBuffer sg = Ok buf)
  /\ (27 <= i sg <= 34)%Z /\ (r sg < 2 ^ 256)%N /\ (s sg < 2 ^ 256)%N
  /\ (forall v', fromBuffer v' = Ok sg -> v' = v).
Proof.
  intros Hparse.
  destruct (fromBuffer_back v sg Hparse) as [[buf [-> [Hlen Hbuf]]] Hfields].
  split; [eauto|]. destruct Hfields as [Hi [Hr Hs]]. repeat (split; [assumption|]).
  intros v' Hparse'.
  destruct (fromBuffer_back v' sg Hparse') as [[buf' [-> [_ Hbuf']]] _].
  congruence.
Qed.

(** X2. With a recovery id that is a byte, [toBuffer] returns 65 bytes
    whatever [r] and [s] are; [fromBuffer] gives the signature back from
    them exactly when the recovery id is in 27..34 and [r], [s] are below
    [2 ^ 256]: bytes of a longer [r] or [s] are cut or overwritten. *)
Theorem toBuffer_lossless_iff (sg : Signature) :
  (0 <= i sg <= 255)%Z ->
  exists buf,
    toBuffer sg = Ok buf
    /\ List.length buf = 65%nat
    /\ (fromBuffer (VBuffer buf) = Ok sg
        <-> (27 <= i sg <= 34)%Z /\ (r sg < 2 ^ 256)%N /\ (s sg < 2 ^ 256)%N).
Proof.
  intros Hi.
  assert (Hsome : exists buf, toBuffer sg = Ok buf /\ List.length buf = 65%nat).
  { unfold toBuffer, Buffer_writeUInt8, Buffer_alloc.
    destruct (Z.leb_spec 0 (i sg)); [|lia].
    destruct (Z.leb_spec (i sg) 255); [|lia].
    change (0 <? List.length (repeat x00 65))%nat with true.
    cbn [andb bind firstn app]. eexists. split; [reflexivity|].
    rewrite !Buffer_copy_length; [reflexivity|simpl; lia|].
    rewrite Buffer_copy_length; simpl; lia. }
  destruct Hsome as [buf [Hbuf Hlen]]. exists buf.
  split; [exact Hbuf|]. split; [exact Hlen|]. split.
  - intros Hparse. apply fromBuffer_accepts in Hparse.
    destruct Hparse as [b [rbuf [sbuf [_ [Hlr [Hls [Hid ->]]]]]]]. cbn [r s i].
    pose proof (BigInteger_fromBuffer_lt rbuf) as Hr. rewrite Hlr in Hr.
    pose proof (BigInteger_fromBuffer_lt sbuf) as Hs. rewrite Hls in Hs.
    rewrite pow_256_32 in Hr, Hs. auto.
  - intros [Hid [Hr Hs]].
    destruct (fromBuffer_toBuffer sg Hid Hr Hs) as [buf' [Hbuf' [_ Hparse]]].
    congruence.
Qed.

(** ** The text form is canonical *)

(** What [fromStringOrThrow] accepts. *)
Lemma fromStringOrThrow_accepts (text : string) (prefix : option string)
  (sg : Signature) :
  fromStringOrThrow text prefix = Ok sg ->
  let expected := prefix_or_default prefix in
  exists decoded,
    substring 0 (String.length expected) text = expected
    /\ base58_decode (String_slice text (Z.of_nat (String.length expected)) None)
       = Ok decoded
    /\ Buffer_slice decoded (-4) None
       = firstn 4 (hash_ripemd160 (Buffer_slice decoded 0 (Some (-4)%Z)))
    /\ fromBuffer (VBuffer (Buffer_slice decoded 0 (Some (-4)%Z))) = Ok sg.
Proof.
  cbv zeta. unfold fromStringOrThrow. cbv zeta. rewrite String_slice_first.
  destruct (String.eqb_spec
              (substring 0 (String.length (prefix_or_default prefix)) text)
              (prefix_or_default prefix)) as [Hprefix|]; [|discriminate].
  cbn [assert bind].
  destruct (base58_decode _) as [decoded|] eqn:Hdecode; [|discriminate].
  cbn [bind]. change 4%Z with (Z.of_nat 4). rewrite Buffer_slice_first.
  destruct (String.eqb_spec
              (Buffer_toString_hex (Buffer_slice decoded (-4) None))
              (Buffer_toString_hex
                 (firstn 4 (hash_ripemd160 (Buffer_slice decoded 0 (Some (-4)%Z))))))
    as [Hsum|]; [|discriminate].
  cbn [assert bind]. intros Hparse. exists decoded.
  apply Buffer_toString_hex_inj in Hsum. auto.
Qed.

(** X3. A text [fromStringOrThrow] accepts for a prefix is exactly the text
    [toString] writes, with that prefix, for the signature it returns. So
    no two texts parse to one signature under one prefix. *)
Theorem toString_fromStringOrThrow (text : string) (prefix : option string)
  (sg : Signature) :
  base58_canonical ->
  fromStringOrThrow text prefix = Ok sg ->
  fst (toString sg None prefix) = Ok text
  /\ (forall text', fromStringOrThrow text' prefix = Ok sg -> text' = text).
Proof.
  intros Hcanonical.
  assert (Hback : forall txt, fromStringOrThrow txt prefix = Ok sg ->
                              fst (toString sg None prefix) = Ok txt).
  { intros txt Hparse. apply fromStringOrThrow_accepts in Hparse.
    cbv zeta in Hparse.
    destruct Hparse as [decoded [Hprefix [Hdecode [Hsum Hbuf]]]].
    destruct (fromBuffer_back _ _ Hbuf) as [[buf [Hv [Hlen Hto]]] _].
    injection Hv as Hv. subst buf.
    rewrite Buffer_slice_but_last_length in Hlen.
    unfold toString. cbn [cache_hit]. rewrite Hto. cbn [fst].
    change 4%Z with (Z.of_nat 4). rewrite Buffer_slice_first, <- Hsum.
    rewrite Buffer_slice_split_last by lia.
    rewrite (Hcanonical _ _ Hdecode).
    rewrite <- Hprefix at 1. rewrite String_slice_split. reflexivity. }
  intros Hparse. split; [apply Hback; exact Hparse|].
  intros text' Hparse'. apply Hback in Hparse, Hparse'. congruence.
Qed.

(** ** The hex form *)

(** X4. The hex form of a signature with a recovery id in 27..34 and [r],
    [s] below [2 ^ 256] has 130 characters; [fromHex] reads the signature
    back from it, and so does [Signature.from], which takes a string of
    that length for hex. *)
Theorem fromHex_toHex (sg : Signature) :
  hex_lossless ->
  (27 <= i sg <= 34)%Z -> (r sg < 2 ^ 256)%N -> (s sg < 2 ^ 256)%N ->
  exists hex,
    toHex sg = Ok hex
    /\ String.length hex = 130%nat
    /\ fromHex hex = Ok sg
    /\ from (VString hex) = Ok (Signature_value sg).
Proof.
  intros Hhex Hi Hr Hs.
  destruct (fromBuffer_toBuffer sg Hi Hr Hs) as [buf [Hbuf [Hlen Hparse]]].
  exists (Buffer_toString_hex buf).
  assert (Hchars : String.length (Buffer_toString_hex buf) = 130%nat)
    by (rewrite Buffer_toString_hex_length, Hlen; reflexivity).
  assert (Hfrom : fromHex (Buffer_toString_hex buf) = Ok sg)
    by (unfold fromHex; rewrite Hhex; exact Hparse).
  split; [unfold toHex; rewrite Hbuf; reflexivity|].
  split; [exact Hchars|]. split; [exact Hfrom|].
  unfold from. cbn [truthy get_r get_s get_i andb].
  destruct (String.eqb_spec (Buffer_toString_hex buf) "") as [Hempty|_];
    [rewrite Hempty in Hchars; discriminate|].
  cbn [negb]. rewrite Hchars, Hfrom. reflexivity.
Qed.

(** ** The normaliser *)

Lemma from_Signature_value (sg : Signature) :
  i sg <> 0%Z -> from (Signature_value sg) = Ok (Signature_value sg).
Proof.
  intros Hi. unfold from, Signature_value. cbn [truthy get_r get_s get_i andb].
  destruct (Z.eqb_spec (i sg) 0); [contradiction|reflexivity].
Qed.

(** X5. [Signature.from] reads a signature back from the text [toString]
    writes with the default prefix, provided the text does not have 130
    characters (a string of that length is taken for hex) and is not
    empty. *)
Theorem from_toString (sg : Signature) (earlier : list (option string))
  (text : string) :
  base58_lossless -> ripemd160_20_bytes ->
  (27 <= i sg <= 34)%Z -> (r sg < 2 ^ 256)%N -> (s sg < 2 ^ 256)%N ->
  fst (toString sg (snd (toString_calls sg None earlier)) None) = Ok text ->
  String.length text <> 130%nat -> text <> EmptyString ->
  from (VString text) = Ok (Signature_value sg).
Proof.
  intros Hcodec Hdigest Hi Hr Hs Htext Hchars Hnonempty.
  destruct (fromBuffer_toBuffer sg Hi Hr Hs) as [buf [Hbuf [_ Hparse]]].
  destruct (toString_calls_cached sg earlier None I) as [_ Hcache].
  destruct (toString_cached sg _ None Hcache) as [Hout _].
  pose proof (fromStringOrThrow_body sg buf None Hcodec Hdigest Hparse) as Hback.
  assert (Hbody : toString_uncached sg None
                  = Ok (prefix_or_default None
                          ++ base58_encode (buf ++ firstn 4 (hash_ripemd160 buf)))%string)
    by (unfold toString_uncached, signature_body; rewrite Hbuf; reflexivity).
  set (written := (prefix_or_default None
                     ++ base58_encode (buf ++ firstn 4 (hash_ripemd160 buf)))%string)
    in *.
  clearbody written. rewrite Hout, Hbody in Htext. injection Htext as <-.
  unfold from. cbn [truthy get_r get_s get_i andb].
  destruct (String.eqb_spec written ""); [contradiction|]. cbn [negb].
  destruct (Nat.eqb_spec (String.length written) 130); [contradiction|].
  unfold fromString. rewrite Hback. reflexivity.
Qed.

(** X6. What [Signature.from] returns it returns again when it is given
    it: a parsed signature has a recovery id in 27..34, so its fields are
    truthy, and a record is only returned when its fields are. *)
Theorem from_idempotent (o v : value) :
  from o = Ok v ->
  from v = Ok v
  /\ truthy (get_r v) = true /\ truthy (get_s v) = true
  /\ truthy (get_i v) = true.
Proof.
  assert (Hparsed : forall w sg, fromBuffer w = Ok sg ->
            from (Signature_value sg) = Ok (Signature_value sg)
            /\ truthy (get_r (Signature_value sg)) = true
            /\ truthy (get_s (Signature_value sg)) = true
            /\ truthy (get_i (Signature_value sg)) = true).
  { intros w sg Hparse. apply fromBuffer_accepts in Hparse.
    destruct Hparse as [b [rbuf [sbuf [_ [_ [_ [Hid ->]]]]]]].
    split; [apply from_Signature_value; cbn [i]; lia|].
    cbn [Signature_value get_r get_s get_i truthy r s i].
    destruct (Z.eqb_spec (Z.of_N (Byte.to_N b)) 0); [lia|auto]. }
  intros Hfrom. unfold from in Hfrom.
  destruct (truthy o) eqn:Ho; [|discriminate].
  destruct (truthy (get_r o) && truthy (get_s o) && truthy (get_i o))%bool
    eqn:Hshape.
  - injection Hfrom as <-. unfold from. rewrite Ho, Hshape.
    apply andb_true_iff in Hshape. destruct Hshape as [Hrs Hi'].
    apply andb_true_iff in Hrs. destruct Hrs. auto.
  - destruct o as [| | | |str|buf| |]; try discriminate.
    + destruct (String.length str =? 130)%nat.
      * unfold fromHex in Hfrom.
        destruct (Buffer_from_hex str) as [buf|]; [|discriminate].
        cbn [bind] in Hfrom.
        destruct (fromBuffer (VBuffer buf)) as [sg|] eqn:Hparse; [|discriminate].
        injection Hfrom as <-. exact (Hparsed _ _ Hparse).
      * unfold fromString in Hfrom.
        destruct (fromStringOrThrow str None) as [sg|] eqn:Hparse; [|discriminate].
        injection Hfrom as <-. apply fromStringOrThrow_accepts in Hparse.
        destruct Hparse as [decoded [_ [_ [_ Hparse]]]].
        exact (Hparsed _ _ Hparse).
    + destruct (fromBuffer (VBuffer buf)) as [sg|] eqn:Hparse; [|discriminate].
      injection Hfrom as <-. exact (Hparsed _ _ Hparse).
Qed.

(** ** Signing: the warnings, and what recovery and verification get *)




(** A signature [signHash] made for a digest: recovery is asked with the
    parameter the signer found. *)
Lemma recoverHash_signHash (fuel : nat) (dataSha256 : list byte)
  (keyInput : KeyInput) (privateKey : PrivateKey) (log : list Z)
  (sg : Signature) :
  recovery_param_in_range ->
  PrivateKey_from keyInput = Ok privateKey ->
  signHash fuel (VBuffer dataSha256) keyInput = Some (log, Ok sg) ->
  List.length dataSha256 = 32%nat
  /\ exists nonce p,
       ecdsa_sign dataSha256 (PrivateKey_d privateKey) nonce
       = mkECSignature (r sg) (s sg)
       /\ ecdsa_calcPubKeyRecoveryParam (BigInteger_fromBuffer dataSha256)
            (mkECSignature (r sg) (s sg)) (PrivateKey_toPublic_Q privateKey)
          = Ok p
       /\ recoverHash sg (VBuffer dataSha256)
          = (Q <- ecdsa_recoverPubKey (BigInteger_fromBuffer dataSha256) sg p ;;
             Ok (PublicKey_fromPoint Q)).
Proof.
  intros Hparam Hkey Hrun. unfold signHash, digest_buffer in Hrun.
  cbn [bind] in Hrun.
  destruct (Nat.eqb_spec (List.length dataSha256) 32) as [Hlen|];
    [|discriminate].
  split; [exact Hlen|]. rewrite Hkey in Hrun. cbv zeta in Hrun.
  apply signHash_loop_signature in Hrun.
  destruct Hrun as [k [p [Hsig [_ [_ [Hp Hi]]]]]].
  exists (0 + Z.of_nat k)%Z, p. split; [exact Hsig|]. split; [exact Hp|].
  unfold recoverHash, digest_buffer. cbn [bind]. rewrite Hlen. cbn [Nat.eqb bind].
  apply Hparam in Hp. cbv zeta. rewrite recovery_mask, Hi.
  - replace (p + 4 + 27 - 27)%Z with (p + 1 * 4)%Z by lia.
    rewrite Z.mod_add, Z.mod_small by lia. reflexivity.
  - assert (7 <= 2 ^ 53)%Z by (vm_compute; discriminate). lia.
Qed.

(** X8. For a signature [sign] made of some data, [recover] on the same
    data (a string or a buffer) asks the curve adapter to recover with the
    SHA-256 digest of the data, the signature, and exactly the 0-3
    parameter the signer found for its own public key: the +4 and +27 of
    [signHash] are undone by the -27 and the mask of [recoverHash]. *)
Theorem recover_sign (fuel : nat) (data : value) (keyInput : KeyInput)
  (privateKey : PrivateKey) (log : list Z) (sg : Signature) :
  recovery_param_in_range ->
  PrivateKey_from keyInput = Ok privateKey ->
  sign fuel data keyInput = Some (log, Ok sg) ->
  exists bytes p,
    data_buffer data = Ok bytes
    /\ List.length (hash_sha256 bytes) = 32%nat
    /\ ecdsa_calcPubKeyRecoveryParam
         (BigInteger_fromBuffer (hash_sha256 bytes))
         (mkECSignature (r sg) (s sg)) (PrivateKey_toPublic_Q privateKey)
       = Ok p
    /\ (0 <= p <= 3)%Z
    /\ recover sg data
       = (Q <- ecdsa_recoverPubKey
                 (BigInteger_fromBuffer (hash_sha256 bytes)) sg p ;;
          Ok (PublicKey_fromPoint Q)).
Proof.
  intros Hparam Hkey Hrun. unfold sign in Hrun. unfold recover.
  destruct (data_buffer data) as [bytes|]; [|discriminate]. cbv zeta in Hrun.
  destruct (recoverHash_signHash _ _ _ _ _ _ Hparam Hkey Hrun)
    as [Hlen [nonce [p [_ [Hp Hrecover]]]]].
  exists bytes, p. cbn [bind]. pose proof (Hparam _ _ _ _ Hp). auto.
Qed.

End MoreProperties.

Section VerificationProperties.

Context {env : Collaborators} {verifier : Verifier env}.

(** X9. A signature [sign] made of some data with a private key passes
    [verify] on the same data with the public key of that private key,
    [verifyHash] on the SHA-256 digest of the data and [verifyHex] on the
    hex form of the data: the three hand [ecdsa.verify] the digest that was
    signed and the pair [ecdsa.sign] returned. *)
Theorem verify_sign (fuel : nat) (data : value) (keyInput : KeyInput)
  (privateKey : PrivateKey) (pubkey : PublicKeyInput) (publicKey : PublicKey)
  (log : list Z) (sg : Signature) :
  verifies_own_signatures ->
  PrivateKey_from keyInput = Ok privateKey ->
  PublicKey_from pubkey = Ok (Some publicKey) ->
  PublicKey_Q publicKey = PrivateKey_toPublic_Q privateKey ->
  sign fuel data keyInput = Some (log, Ok sg) ->
  verify sg data pubkey = Ok true
  /\ exists bytes,
       data_buffer data = Ok bytes
       /\ verifyHash sg (VBuffer (hash_sha256 bytes)) pubkey = Ok true
       /\ (hex_lossless ->
           verifyHex sg (Buffer_toString_hex bytes) pubkey = Ok true).
Proof.
  intros Hverifies Hkey Hpub HQ Hrun. unfold sign in Hrun.
  destruct (data_buffer data) as [bytes|] eqn:Hdata; [|discriminate].
  cbv zeta in Hrun. unfold signHash, digest_buffer in Hrun. cbn [bind] in Hrun.
  destruct (Nat.eqb_spec (List.length (hash_sha256 bytes)) 32) as [Hlen|];
    [|discriminate].
  rewrite Hkey in Hrun. cbv zeta in Hrun.
  apply signHash_loop_signature in Hrun.
  destruct Hrun as [k [p [Hsig _]]].
  assert (Hhash : verifyHash sg (VBuffer (hash_sha256 bytes)) pubkey = Ok true).
  { unfold verifyHash, digest_buffer. cbn [bind]. rewrite Hlen. cbn [Nat.eqb bind].
    rewrite Hpub. cbn [bind]. rewrite <- Hsig, HQ, Hverifies. reflexivity. }
  assert (Hverify : forall v, data_buffer v = Ok bytes ->
                              verify sg v pubkey = Ok true).
  { intros v Hv. unfold verify. rewrite Hv. cbn [bind]. exact Hhash. }
  split; [apply Hverify; exact Hdata|].
  exists bytes. split; [reflexivity|]. split; [exact Hhash|].
  intros Hhex. unfold verifyHex. rewrite Hhex. cbn [bind].
  apply Hverify. reflexivity.
Qed.

End VerificationProperties.

(** * The further statements on the sample environment *)

Module SampleMoreFacts.

Lemma sample_hex_lossless : @hex_lossless Sample.env.
Proof.
  intros buf. cbn [Buffer_from_hex Sample.env]. f_equal.
  apply from_hex_toString_hex.
Qed.

Lemma sample_base58_canonical : @base58_canonical Sample.env.
Proof. intros text source. apply Base58Canonical.encode_decode. Qed.

Lemma sample_sign_other (dataSha256 : list byte) (d : N) (nonce : Z) :
  nonce <> 0%Z -> nonce <> 1%Z ->
  Sample.sign dataSha256 d nonce = Sample.sign dataSha256 d 2.
Proof.
  intros H0 H1. unfold Sample.sign.
  destruct (Z.eqb_spec nonce 0); [contradiction|].
  destruct (Z.eqb_spec nonce 1); [contradiction|]. reflexivity.
Qed.

Lemma sample_verifies_own_signatures :
  @verifies_own_signatures Sample.env SampleVerifier.verifier.
Proof.
  intros dataSha256 d nonce.
  cbn [ecdsa_verify SampleVerifier.verifier ecdsa_sign PrivateKey_d
         PrivateKey_toPublic_Q Sample.env].
  unfold SampleVerifier.verify.
  rewrite N.mul_comm, N.div_mul by discriminate. cbn [existsb].
  destruct (Z.eqb_spec nonce 0) as [->|H0];
    [rewrite !N.eqb_refl; reflexivity|].
  destruct (Z.eqb_spec nonce 1) as [->|H1];
    [rewrite !N.eqb_refl; cbn [andb]; apply orb_true_r|].
  rewrite (sample_sign_other _ _ nonce H0 H1), !N.eqb_refl. cbn [andb].
  rewrite !orb_true_r. reflexivity.
Qed.

Example warnings_25 : warnings 25 = [10%Z; 20%Z].
Proof. reflexivity. Qed.

Lemma sample_sign_hello :
  @sign Sample.env 3 (VString "hello") 7%N
  = Some ([], Ok Sample.hello_signature).
Proof. vm_compute. reflexivity. Qed.

Lemma sample_fromStringOrThrow_hello :
  @fromStringOrThrow Sample.env Sample.hello_text None
  = Ok Sample.hello_signature.
Proof. vm_compute. reflexivity. Qed.

End SampleMoreFacts.

(** X1 on the sample: 65 bytes that start with the recovery id 34. *)
Lemma toBuffer_fromBuffer_sample :
  exists buf,
    VBuffer (x22 :: repeat x01 64) = VBuffer buf
    /\ List.length buf = 65%nat
    /\ toBuffer (mkSignature (BigInteger_fromBuffer (repeat x01 32))
                   (BigInteger_fromBuffer (repeat x01 32)) 34)
       = Ok buf.
Proof.
  refine (proj1 (toBuffer_fromBuffer (VBuffer (x22 :: repeat x01 64)) _ _)).
  vm_compute. reflexivity.
Defined.

(** X2 on the sample: an [r] of 33 bytes is not read back. *)
Lemma toBuffer_lossless_iff_sample :
  exists buf,
    toBuffer (mkSignature (2 ^ 256) 1 27) = Ok buf
    /\ List.length buf = 65%nat
    /\ fromBuffer (VBuffer buf) <> Ok (mkSignature (2 ^ 256) 1 27).
Proof.
  destruct (toBuffer_lossless_iff (mkSignature (2 ^ 256) 1 27))
    as [buf [Hbuf [Hlen Hiff]]]; [cbn [i]; lia|].
  exists buf. split; [exact Hbuf|]. split; [exact Hlen|].
  intros Hparse. apply Hiff in Hparse. destruct Hparse as [_ [Hr _]].
  exact (N.lt_irrefl _ Hr).
Defined.

(** X3 on the sample: the text of the signed digest. *)
Lemma toString_fromStringOrThrow_sample :
  fst (@toString Sample.env Sample.hello_signature None None)
  = Ok Sample.hello_text.
Proof.
  exact (proj1 (toString_fromStringOrThrow (env := Sample.env)
                  Sample.hello_text None Sample.hello_signature
                  SampleMoreFacts.sample_base58_canonical
                  SampleMoreFacts.sample_fromStringOrThrow_hello)).
Defined.

(** X4 on the sample. *)
Lemma fromHex_toHex_sample :
  exists hex,
    toHex Sample.hello_signature = Ok hex
    /\ String.length hex = 130%nat
    /\ @fromHex Sample.env hex = Ok Sample.hello_signature
    /\ @from Sample.env (VString hex) = Ok (Signature_value Sample.hello_signature).
Proof.
  apply (fromHex_toHex (env := Sample.env) Sample.hello_signature
           SampleMoreFacts.sample_hex_lossless).
  - cbn [i Sample.hello_signature]. lia.
  - vm_compute. reflexivity.
  - vm_compute. reflexivity.
Defined.

(** X5 on the sample: the text has 97 characters. *)
Lemma from_toString_sample :
  @from Sample.env (VString Sample.hello_text)
  = Ok (Signature_value Sample.hello_signature).
Proof.
  apply (from_toString (env := Sample.env) Sample.hello_signature []
           Sample.hello_text
           SampleFacts.sample_base58_lossless
           SampleFacts.sample_ripemd160_20_bytes).
  - cbn [i Sample.hello_signature]. lia.
  - vm_compute. reflexivity.
  - vm_compute. reflexivity.
  - vm_compute. reflexivity.
  - vm_compute. discriminate.
  - discriminate.
Defined.

(** X6 on the sample: what [from] made of the hex form. *)
Lemma from_idempotent_sample :
  @from Sample.env (Signature_value Sample.hello_signature)
  = Ok (Signature_value Sample.hello_signature).
Proof.
  exact (proj1 (from_idempotent (env := Sample.env)
                  (VString Sample.hello_hex)
                  (Signature_value Sample.hello_signature)
                  SampleFacts.sample_from_hex)).
Defined.


(** X8 on the sample: the digest of "hello" signed with the key 7. *)
Lemma recover_sign_sample :
  exists p,
    (0 <= p <= 3)%Z
    /\ @recover Sample.env Sample.hello_signature (VString "hello")
       = (Q <- Sample.recoverPubKey (BigInteger_fromBuffer Sample.hello)
                 Sample.hello_signature p ;;
          Ok Q).
Proof.
  destruct (recover_sign (env := Sample.env) 3 (VString "hello") 7%N 7%N []
              Sample.hello_signature
              SampleFacts.sample_recovery_param_in_range eq_refl
              SampleMoreFacts.sample_sign_hello)
    as [bytes [p [Hdata [_ [_ [Hp Hrecover]]]]]].
  injection Hdata as <-. exists p. split; [exact Hp|exact Hrecover].
Defined.

(** X9 on the sample: the public key of the private key 7 is 21. *)
Lemma verify_sign_sample :
  @verify Sample.env SampleVerifier.verifier Sample.hello_signature
    (VString "hello") 21%N
  = Ok true.
Proof.
  exact (proj1 (verify_sign (env := Sample.env)
                  (verifier := SampleVerifier.verifier)
                  3 (VString "hello") 7%N 7%N 21%N 21%N []
                  Sample.hello_signature
                  SampleMoreFacts.sample_verifies_own_signatures
                  eq_refl eq_refl eq_refl
                  SampleMoreFacts.sample_sign_hello)).
Defined.
